(** * Kurento Media Server: start-up, configuration and signal handling

    A shallow embedding of [server/main.cpp]: the configuration loader
    ([load_config], [load_sdp_pattern], [read_entire_file], [check_port],
    [set_default_server_config]), the Thrift service thread
    ([create_media_server_service]), the signal handler ([bt_sighandler],
    [quit_loop], [getExecutableName]) and [main].

    The C++ code works on file-scope globals, throws and catches
    exceptions, calls [exit] and talks to the operating system.  All of
    this is made explicit: a [Process] record holds the globals, the GLib
    main loop, the file system and the trace of observable events, and the
    functions of the source are computations in a state monad whose results
    say how control left the function. *)

From Stdlib Require Import ZArith Lia.
From Stdlib Require Import Strings.Ascii Strings.HexString Numbers.DecimalString.
From stdpp Require Import base option list strings gmap pretty.

Local Open Scope Z_scope.

(** ** Compiled-in constants

    [media_config.hpp] is not part of the verified sources, so the macros it
    defines are parameters of the development. *)

Class MediaConfig := {
  DEFAULT_CONFIG_FILE : string;
  MEDIA_SERVER_ADDRESS : string;
  MEDIA_SERVER_SERVICE_PORT : Z;
  SERVER_GROUP : string;
  MEDIA_SERVER_ADDRESS_KEY : string;
  MEDIA_SERVER_SERVICE_PORT_KEY : string;
  SDP_PATTERN_KEY : string
}.

(** [G_MAXUSHORT] of GLib and the signal numbers of [<signal.h>] on Linux. *)
Definition G_MAXUSHORT : Z := 65535.
Definition SIGINT : Z := 2.
Definition SIGKILL : Z := 9.
Definition SIGSEGV : Z := 11.
Definition SIGPIPE : Z := 13.
Definition SIGCONT : Z := 18.

(** ** Key files

    A [Glib::KeyFile] is kept the way GLib stores it: a list of groups, the
    most recently added first, each with its list of pairs, again the most
    recently added first.  A comment line is a pair without a key; the
    comments above the first group header live in a group without a name. *)

Inductive KeyFilePair :=
| Comment (text : string)
| KeyValue (key value : string).

Record KeyFileGroup := {
  group_name : option string;
  key_value_pairs : list KeyFilePair
}.

Definition KeyFile := list KeyFileGroup.

#[global] Instance KeyFilePair_eq_dec : EqDecision KeyFilePair.
Proof. solve_decision. Defined.
#[global] Instance KeyFileGroup_eq_dec : EqDecision KeyFileGroup.
Proof. solve_decision. Defined.

Module KeyFileOps.

Fixpoint lookup_key (pairs : list KeyFilePair) (k : string) : option string :=
  match pairs with
  | [] => None
  | Comment _ :: rest => lookup_key rest k
  | KeyValue k' v :: rest =>
      if decide (k' = k) then Some v else lookup_key rest k
  end.

Fixpoint replace_key (pairs : list KeyFilePair) (k v : string)
  : list KeyFilePair :=
  match pairs with
  | [] => []
  | Comment c :: rest => Comment c :: replace_key rest k v
  | KeyValue k' v' :: rest =>
      if decide (k' = k) then KeyValue k' v :: rest
      else KeyValue k' v' :: replace_key rest k v
  end.

(** A key that is present gets a new value where it stands; a new key is
    added to the group. *)
Definition set_key (pairs : list KeyFilePair) (k v : string)
  : list KeyFilePair :=
  match lookup_key pairs k with
  | Some _ => replace_key pairs k v
  | None => KeyValue k v :: pairs
  end.

Fixpoint lookup_group (kf : KeyFile) (g : string) : option KeyFileGroup :=
  match kf with
  | [] => None
  | grp :: rest =>
      if decide (group_name grp = Some g) then Some grp
      else lookup_group rest g
  end.

Fixpoint alter_group (f : list KeyFilePair -> list KeyFilePair)
    (kf : KeyFile) (g : string) : KeyFile :=
  match kf with
  | [] => []
  | grp :: rest =>
      if decide (group_name grp = Some g)
      then {| group_name := group_name grp;
              key_value_pairs := f (key_value_pairs grp) |} :: rest
      else grp :: alter_group f rest g
  end.

(** [g_key_file_set_value]: the group is created when it is missing. *)
Definition set_value (kf : KeyFile) (g k v : string) : KeyFile :=
  match lookup_group kf g with
  | Some _ => alter_group (fun pairs => set_key pairs k v) kf g
  | None =>
      {| group_name := Some g; key_value_pairs := [KeyValue k v] |} :: kf
  end.

(** The value stored for a key of a group, as the file has it. *)
Definition raw_value (kf : KeyFile) (g k : string) : option string :=
  grp ← lookup_group kf g; lookup_key (key_value_pairs grp) k.

(** Every line of the key file with the group it stands in. *)
Definition lines_of (kf : KeyFile) : list (option string * KeyFilePair) :=
  flat_map (fun grp => map (pair (group_name grp)) (key_value_pairs grp)) kf.

End KeyFileOps.

(** The error codes of [Glib::KeyFileError]. *)
Inductive KeyFileErrorCode :=
| UNKNOWN_ENCODING | PARSE | NOT_FOUND | KEY_NOT_FOUND | GROUP_NOT_FOUND
| INVALID_VALUE.

(** ** Exceptions and results *)

Inductive Exception :=
| KeyFileError (code : KeyFileErrorCode)  (* derives from Glib::Error *)
| FileError                               (* Glib::FileError, a Glib::Error *)
| ThreadExit                              (* Glib::Thread::Exit *)
| TException.                             (* Thrift's transport exception *)

Definition is_Glib_Error (e : Exception) : bool :=
  match e with
  | KeyFileError _ | FileError => true
  | ThreadExit | TException => false
  end.

(** How control leaves a function: it returns, an exception propagates,
    [exit] ends the process, a null pointer is dereferenced, or the thread
    stays inside a blocking call. *)
Inductive Result (A : Type) :=
| Ret (a : A)
| Throw (e : Exception)
| Exit (status : Z)
| Segv
| Blocked.

Arguments Ret {A} a.
Arguments Throw {A} e.
Arguments Exit {A} status.
Arguments Segv {A}.
Arguments Blocked {A}.

(** ** The process and its surroundings *)

(** A frame of the call stack as [backtrace] and [backtrace_symbols]
    report it. *)
Record Frame := { frame_address : Z; frame_symbol : string }.

(** What [g_option_context_parse] makes of the command line. *)
Inductive CommandLine :=
| BadOptions (message : string)
| Options (conf_file : option string).

Inductive Status :=
| Running
| Exited (code : Z)     (* exit (code), or main returned code *)
| Killed (sig : Z)      (* ended by a signal that is not caught *)
| Aborted.              (* ended by an exception nobody caught *)

#[global] Instance Status_eq_dec : EqDecision Status.
Proof. solve_decision. Defined.

Inductive Thread := MainThread | ServiceThread.

Inductive Action :=
| Deliver (thread : Thread) (sig si_addr : Z) (stack : list Frame)
| Iterate
| RunService.

Definition nl : string := String "010"%char "".
Definition tab : string := String "009"%char "".
Definition dquote : string := String "034"%char "".

(** A parsed SDP message is represented by the text GStreamer prints for
    it. *)
Record GstSDPMessage := { gst_sdp_message_text : string }.

Inductive Level := LDEBUG | LINFO | LWARNING | LERROR.

(** What the process does that can be seen from outside. *)
Inductive Event :=
| Log (lvl : Level) (msg : string)       (* GST_DEBUG, GST_INFO, ... *)
| LogWhat (lvl : Level) (e : Exception)  (* logging [err.what ()] *)
| Stdout (text : string)                 (* printf and g_print *)
| Stderr (text : string)
| Shell (cmd : string)                   (* system (syscom) *)
| Kill (pid sig : Z)                     (* kill (pid, sig) *)
| Sigaction (sig : Z)
| ThreadManagerStart (workers : Z)
| ThreadCreate                           (* Glib::Thread::create *)
| Bound (port : Z)                       (* serve () bound its socket *)
| BindFailed (port : Z)                  (* serve () could not bind *)
| AcceptLoopClosed.                      (* serve () returned *)

#[global] Instance KeyFileErrorCode_eq_dec : EqDecision KeyFileErrorCode.
Proof. solve_decision. Defined.
#[global] Instance Exception_eq_dec : EqDecision Exception.
Proof. solve_decision. Defined.
#[global] Instance Level_eq_dec : EqDecision Level.
Proof. solve_decision. Defined.
#[global] Instance Event_eq_dec : EqDecision Event.
Proof. solve_decision. Defined.

(** The only slot ever connected to a source of the main loop is
    [quit_loop]. *)
Inductive Callback := QuitLoop.

Record Process := {
  (* file-scope variables of main.cpp *)
  serverAddress : string;
  serverServicePort : Z;
  sdpPattern : option GstSDPMessage;       (* [None] is the NULL pointer *)
  configFile : KeyFile;
  p_server : option Z;        (* the server object, known by its port *)
  exe : option string;        (* the static [exe] of getExecutableName *)
  (* [loop]: the Glib::MainLoop and the sources attached to its context *)
  loop_is_running : bool;
  loop_sources : list Callback;
  (* operating system *)
  files : gmap string string;
  events : list Event                      (* oldest first *)
}.

Definition set_serverAddress (v : string) (p : Process) : Process :=
  {| serverAddress := v; serverServicePort := serverServicePort p;
     sdpPattern := sdpPattern p; configFile := configFile p;
     p_server := p_server p; exe := exe p;
     loop_is_running := loop_is_running p; loop_sources := loop_sources p;
     files := files p; events := events p |}.

Definition set_serverServicePort (v : Z) (p : Process) : Process :=
  {| serverAddress := serverAddress p; serverServicePort := v;
     sdpPattern := sdpPattern p; configFile := configFile p;
     p_server := p_server p; exe := exe p;
     loop_is_running := loop_is_running p; loop_sources := loop_sources p;
     files := files p; events := events p |}.

Definition set_sdpPattern (v : option GstSDPMessage) (p : Process) : Process :=
  {| serverAddress := serverAddress p; serverServicePort := serverServicePort p;
     sdpPattern := v; configFile := configFile p;
     p_server := p_server p; exe := exe p;
     loop_is_running := loop_is_running p; loop_sources := loop_sources p;
     files := files p; events := events p |}.

Definition set_configFile (v : KeyFile) (p : Process) : Process :=
  {| serverAddress := serverAddress p; serverServicePort := serverServicePort p;
     sdpPattern := sdpPattern p; configFile := v;
     p_server := p_server p; exe := exe p;
     loop_is_running := loop_is_running p; loop_sources := loop_sources p;
     files := files p; events := events p |}.

Definition set_p_server (v : option Z) (p : Process) : Process :=
  {| serverAddress := serverAddress p; serverServicePort := serverServicePort p;
     sdpPattern := sdpPattern p; configFile := configFile p;
     p_server := v; exe := exe p;
     loop_is_running := loop_is_running p; loop_sources := loop_sources p;
     files := files p; events := events p |}.

Definition set_exe (v : option string) (p : Process) : Process :=
  {| serverAddress := serverAddress p; serverServicePort := serverServicePort p;
     sdpPattern := sdpPattern p; configFile := configFile p;
     p_server := p_server p; exe := v;
     loop_is_running := loop_is_running p; loop_sources := loop_sources p;
     files := files p; events := events p |}.

Definition set_loop_is_running (v : bool) (p : Process) : Process :=
  {| serverAddress := serverAddress p; serverServicePort := serverServicePort p;
     sdpPattern := sdpPattern p; configFile := configFile p;
     p_server := p_server p; exe := exe p;
     loop_is_running := v; loop_sources := loop_sources p;
     files := files p; events := events p |}.

Definition set_loop_sources (v : list Callback) (p : Process) : Process :=
  {| serverAddress := serverAddress p; serverServicePort := serverServicePort p;
     sdpPattern := sdpPattern p; configFile := configFile p;
     p_server := p_server p; exe := exe p;
     loop_is_running := loop_is_running p; loop_sources := v;
     files := files p; events := events p |}.

Definition set_files (v : gmap string string) (p : Process) : Process :=
  {| serverAddress := serverAddress p; serverServicePort := serverServicePort p;
     sdpPattern := sdpPattern p; configFile := configFile p;
     p_server := p_server p; exe := exe p;
     loop_is_running := loop_is_running p; loop_sources := loop_sources p;
     files := v; events := events p |}.

Definition set_events (v : list Event) (p : Process) : Process :=
  {| serverAddress := serverAddress p; serverServicePort := serverServicePort p;
     sdpPattern := sdpPattern p; configFile := configFile p;
     p_server := p_server p; exe := exe p;
     loop_is_running := loop_is_running p; loop_sources := loop_sources p;
     files := files p; events := v |}.

(** The state of a freshly started process: the statics are zero, the
    key file is empty, [loop] was made by [Glib::MainLoop::create (true)]. *)
Definition initial_process (fs : gmap string string) : Process :=
  {| serverAddress := ""; serverServicePort := 0; sdpPattern := None;
     configFile := []; p_server := None; exe := None;
     loop_is_running := true; loop_sources := [];
     files := fs; events := [] |}.

(** What the libraries and the operating system answer.  GLib's key-file
    parser and printer, GStreamer's SDP parser and Thrift's server are used
    by main.cpp, not defined by it. *)

Inductive LoadResult :=
| Loaded (kf : KeyFile)
| LoadFalse                          (* failure reported by the result only *)
| LoadError (code : KeyFileErrorCode).  (* failure reported by an exception *)

Inductive ServeBehaviour :=
| BindFails            (* the port cannot be bound: serve () throws *)
| ServesForever        (* bound, and the accept loop never ends *)
| ServesUntilClosed.   (* bound, and the accept loop ends later *)

Class Platform := {
  (* GLib: g_key_file_load_from_data with KEEP_COMMENTS | KEEP_TRANSLATIONS *)
  g_key_file_load_from_data : string -> LoadResult;
  g_key_file_to_data : KeyFile -> string;
  g_key_file_parse_value_as_string : string -> option string;
  g_key_file_parse_string_as_value : string -> string;
  g_key_file_parse_value_as_integer : string -> option Z;
  (* GStreamer *)
  gst_sdp_message_new : bool;          (* [true] is GST_SDP_OK *)
  gst_sdp_message_parse_buffer : string -> option GstSDPMessage;
  (* operating system *)
  getppid : Z;
  readlink_proc_exe : option string;   (* readlink ("/proc/<pid>/exe") *)
  (* Thrift *)
  serve_behaviour : ServeBehaviour
}.

(** ** The monad of the embedding *)

Definition M (A : Type) : Type := Process -> Result A * Process.

#[global] Instance M_ret : MRet M := fun A a p => (Ret a, p).

#[global] Instance M_bind : MBind M := fun A B f m p =>
  match m p with
  | (Ret a, p') => f a p'
  | (Throw e, p') => (Throw e, p')
  | (Exit s, p') => (Exit s, p')
  | (Segv, p') => (Segv, p')
  | (Blocked, p') => (Blocked, p')
  end.

Definition gets {A} (f : Process -> A) : M A := fun p => (Ret (f p), p).
Definition modify (f : Process -> Process) : M unit := fun p => (Ret tt, f p).
Definition throw {A} (e : Exception) : M A := fun p => (Throw e, p).
Definition exit {A} (status : Z) : M A := fun p => (Exit status, p).
Definition segfault {A} : M A := fun p => (Segv, p).
Definition block {A} : M A := fun p => (Blocked, p).
Definition emit (ev : Event) : M unit :=
  modify (fun p => set_events (events p ++ [ev]) p).

(** [try { body } catch (Glib::KeyFileError err) { handler }] *)
Definition try_catch_KeyFileError {A} (body : M A) (handler : Exception -> M A)
  : M A := fun p =>
  match body p with
  | (Throw (KeyFileError c), p') => handler (KeyFileError c) p'
  | r => r
  end.

(** [try { body } catch (Glib::Error ex) { handler }] *)
Definition try_catch_Glib_Error {A} (body : M A) (handler : Exception -> M A)
  : M A := fun p =>
  match body p with
  | (Throw e, p') => if is_Glib_Error e then handler e p' else (Throw e, p')
  | r => r
  end.

Definition GST_DEBUG (msg : string) : M unit := emit (Log LDEBUG msg).
Definition GST_INFO (msg : string) : M unit := emit (Log LINFO msg).
Definition GST_WARNING (msg : string) : M unit := emit (Log LWARNING msg).
Definition GST_ERROR (msg : string) : M unit := emit (Log LERROR msg).

(** The process as a whole: its state, whether it still runs, and how the
    service thread left [create_media_server_service], once it ran. *)
Record System := {
  process : Process;
  status : Status;
  worker : option (Result unit)
}.

(** ** The functions of main.cpp *)

Section Program.

Context `{cfg : MediaConfig} `{os : Platform}.

(** *** The methods of [Glib::KeyFile] used on [configFile] *)

Definition get_value (g k : string) : M string :=
  kf ← gets configFile;
  match KeyFileOps.lookup_group kf g with
  | None => throw (KeyFileError GROUP_NOT_FOUND)
  | Some grp =>
      match KeyFileOps.lookup_key (key_value_pairs grp) k with
      | None => throw (KeyFileError KEY_NOT_FOUND)
      | Some v => mret v
      end
  end.

Definition get_string (g k : string) : M string :=
  v ← get_value g k;
  match g_key_file_parse_value_as_string v with
  | None => throw (KeyFileError INVALID_VALUE)
  | Some s => mret s
  end.

Definition get_integer (g k : string) : M Z :=
  v ← get_value g k;
  match g_key_file_parse_value_as_integer v with
  | None => throw (KeyFileError INVALID_VALUE)
  | Some n => mret n
  end.

Definition set_string (g k s : string) : M unit :=
  modify (fun p =>
    set_configFile
      (KeyFileOps.set_value (configFile p) g k
         (g_key_file_parse_string_as_value s)) p).

(** The value is printed with ["%i"]. *)
Definition set_integer (g k : string) (n : Z) : M unit :=
  modify (fun p =>
    set_configFile (KeyFileOps.set_value (configFile p) g k (pretty n)) p).

(** glibmm turns the [GError] of [g_key_file_load_from_file] into an
    exception; a file that cannot be read is a [Glib::FileError]. *)
Definition load_from_file (file_name : string) : M bool :=
  fs ← gets files;
  match fs !! file_name with
  | None => throw FileError
  | Some data =>
      match g_key_file_load_from_data data with
      | Loaded kf => modify (set_configFile kf) ;; mret true
      | LoadFalse => mret false
      | LoadError code => throw (KeyFileError code)
      end
  end.

Definition to_data : M string :=
  gets (fun p => g_key_file_to_data (configFile p)).

(** *** Streams *)

(** [std::ifstream file (file_name)]: does the stream open? *)
Definition ifstream (file_name : string) : M bool :=
  gets (fun p => bool_decide (is_Some (files p !! file_name))).

(** [std::ofstream f (file_name)], with or without [trunc], followed by
    [f << data]: the file is created or emptied, then written. *)
Definition ofstream (file_name data : string) : M unit :=
  modify (fun p => set_files (<[file_name := data]> (files p)) p).

(** *** check_port (lines 103-108) *)
Definition check_port (port : Z) : M unit :=
  if (port <=? 0) || (port >? G_MAXUSHORT)
  then throw (KeyFileError PARSE)
  else mret tt.

(** *** set_default_server_config (lines 110-115) *)
Definition set_default_server_config : M unit :=
  modify (set_serverAddress MEDIA_SERVER_ADDRESS) ;;
  modify (set_serverServicePort MEDIA_SERVER_SERVICE_PORT).

(** *** read_entire_file (lines 117-133)

    The result of [fopen] is used unchecked: when the file cannot be
    opened, [fseek] is called on a null stream.  Otherwise the buffer
    holds the contents of the file. *)
Definition read_entire_file (file_name : string) : M string :=
  fs ← gets files;
  match fs !! file_name with
  | None => segfault
  | Some data => mret data
  end.

(** *** load_sdp_pattern (lines 135-164)

    Its parameter is a reference to the global [configFile]. *)
Definition load_sdp_pattern : M (option GstSDPMessage) :=
  GST_DEBUG "Load SDP Pattern" ;;
  if negb gst_sdp_message_new then
    GST_ERROR "Error creating sdp message" ;;
    mret None
  else
    sdp_pattern_file_name ← get_string SERVER_GROUP SDP_PATTERN_KEY;
    sdp_pattern_text ← read_entire_file sdp_pattern_file_name;
    match gst_sdp_message_parse_buffer sdp_pattern_text with
    | None =>
        GST_ERROR "Error parsing SDP config pattern" ;;
        mret None
    | Some sdp_pattern => mret (Some sdp_pattern)
    end.

(** [gst_sdp_message_as_text]; a null message prints as ["(null)"]. *)
Definition gst_sdp_message_as_text (msg : option GstSDPMessage) : string :=
  match msg with
  | None => "(null)"
  | Some m => gst_sdp_message_text m
  end.

Definition loading_default_warning (file_name : string) : string :=
  "Error loading configuration from " +:+ file_name +:+
  ", loading default server config, but no codecs will be available".

(** *** load_config (lines 166-239)

    The first [try] block leaves the function on failure; its value here
    says whether the function goes on. *)
Definition load_config (file_name : string) : M unit :=
  GST_INFO ("Reading configuration from: " +:+ file_name) ;;
  file ← ifstream file_name;
  (if negb file then
     GST_INFO "Config file not found, creating a new one" ;;
     ofstream file_name ""
   else mret tt) ;;
  loaded ← try_catch_Glib_Error
    (ok ← load_from_file file_name;
     if negb ok then
       GST_WARNING (loading_default_warning file_name) ;;
       set_default_server_config ;;
       mret false
     else mret true)
    (fun ex =>
       emit (LogWhat LWARNING ex) ;;
       GST_WARNING (loading_default_warning file_name) ;;
       set_default_server_config ;;
       mret false);
  if negb loaded then mret tt else
  try_catch_KeyFileError
    (address ← get_string SERVER_GROUP MEDIA_SERVER_ADDRESS_KEY;
     modify (set_serverAddress address))
    (fun err =>
       emit (LogWhat LINFO err) ;;
       GST_INFO "Setting default address" ;;
       set_string SERVER_GROUP MEDIA_SERVER_ADDRESS_KEY MEDIA_SERVER_ADDRESS ;;
       modify (set_serverAddress MEDIA_SERVER_ADDRESS)) ;;
  try_catch_KeyFileError
    (port ← get_integer SERVER_GROUP MEDIA_SERVER_SERVICE_PORT_KEY;
     check_port port ;;
     modify (set_serverServicePort port))
    (fun err =>
       emit (LogWhat LINFO err) ;;
       GST_INFO "Setting default server port" ;;
       set_integer SERVER_GROUP MEDIA_SERVER_SERVICE_PORT_KEY
         MEDIA_SERVER_SERVICE_PORT ;;
       modify (set_serverServicePort MEDIA_SERVER_SERVICE_PORT)) ;;
  try_catch_KeyFileError
    (pattern ← load_sdp_pattern;
     modify (set_sdpPattern pattern) ;;
     GST_DEBUG ("SDP: 
" +:+ gst_sdp_message_as_text pattern))
    (fun err =>
       emit (LogWhat LWARNING err) ;;
       GST_WARNING "Wrong codec configuration, communication won't be possible") ;;
  data ← to_data;
  ofstream file_name data ;;
  GST_INFO "Configuration loaded successfully" ;;
  data' ← to_data;
  GST_DEBUG ("Final config file:
" +:+ data').

(** *** create_media_server_service (lines 78-101) *)

(** [server.serve ()] of Thrift binds the port, then runs the accept
    loop. *)
Definition serve (port : Z) : M unit :=
  match serve_behaviour with
  | BindFails => emit (BindFailed port) ;; throw TException
  | ServesForever => emit (Bound port) ;; block
  | ServesUntilClosed => emit (Bound port) ;; emit AcceptLoopClosed
  end.

Definition create_media_server_service : M unit :=
  let port := MEDIA_SERVER_SERVICE_PORT in
  emit (ThreadManagerStart 15) ;;
  let server := port in
  modify (set_p_server (Some server)) ;;
  GST_INFO "Starting MediaServerService" ;;
  emit (Kill getppid SIGCONT) ;;
  serve server ;;
  GST_INFO "MediaServerService stopped finishing thread" ;;
  throw ThreadExit.

(** *** getExecutableName (lines 241-269) *)

Definition initialiseExecutableName : M string :=
  match readlink_proc_exe with
  | None => emit (Stderr ("ERROR GETTING NAME" +:+ nl)) ;; exit 1
  | Some name => mret name
  end.

Definition getExecutableName : M string :=
  cached ← gets exe;
  match cached with
  | None =>
      aux ← initialiseExecutableName;
      modify (set_exe (Some aux)) ;;
      mret aux
  | Some name => mret name
  end.

(** *** quit_loop (lines 271-277) *)
Definition quit_loop : M bool :=
  modify (set_loop_is_running false) ;;
  mret false.

(** *** bt_sighandler (lines 279-334) *)

(** [g_strsplit (message, "(", 2)]: the text before the first
    parenthesis, when there is one.  [backtrace_symbols] gives no empty
    symbol. *)
Fixpoint before_paren (acc s : string) : option string :=
  match s with
  | EmptyString => None
  | String c rest =>
      if decide (c = "("%char) then Some acc
      else before_paren (acc +:+ String c "") rest
  end.

(** ["%p"] *)
Definition format_pointer (a : Z) : string :=
  if a =? 0 then "(nil)" else HexString.of_Z a.

Definition syscom (address : Z) (exe_name : string) : string :=
  "echo -n " +:+ dquote +:+ tab +:+ "[bt]" +:+ tab +:+ tab +:+ dquote +:+
  "; addr2line " +:+ format_pointer address +:+ " -s -e " +:+ exe_name.

(** The body of the [for] loop, from frame [i] on. *)
Fixpoint print_frames (i : Z) (frames : list Frame) : M unit :=
  match frames with
  | [] => mret tt
  | fr :: rest =>
      emit (Stdout (tab +:+ "[bt] #" +:+ pretty i +:+ " " +:+
                    frame_symbol fr +:+ nl)) ;;
      exe_name ← match before_paren "" (frame_symbol fr) with
                 | None => getExecutableName
                 | Some module => mret module
                 end;
      emit (Shell (syscom (frame_address fr) exe_name)) ;;
      print_frames (i + 1) rest
  end.

(** [stack] is the call stack [backtrace] finds, the handler's own frame
    first.  The first branch's value says whether the function goes on
    after the chain of tests. *)
Definition bt_sighandler (sig si_addr : Z) (stack : list Frame) : M unit :=
  go_on ←
    (if sig =? SIGSEGV then
       emit (Stdout ("Got signal " +:+ pretty sig +:+
                     ", faulty address is " +:+ format_pointer si_addr +:+
                     nl)) ;;
       mret true
     else if (sig =? SIGKILL) || (sig =? SIGINT) then
       let idle_source := QuitLoop in
       modify (fun p => set_loop_sources (loop_sources p ++ [idle_source]) p) ;;
       mret false
     else
       emit (Stdout ("Got signal " +:+ pretty sig +:+ nl)) ;;
       mret true);
  if negb go_on then mret tt else
  let trace := take 35 stack in
  emit (Stdout (tab +:+ "[bt] Execution path:" +:+ nl)) ;;
  print_frames 1 (drop 1 trace) ;;
  if sig =? SIGPIPE then GST_DEBUG "Ignore sigpipe"
  else exit sig.

(** *** The main loop *)

(** One iteration of the main loop dispatches the sources that are
    attached; a source whose callback returns [FALSE] is removed. *)
Fixpoint dispatch (sources : list Callback) : M (list Callback) :=
  match sources with
  | [] => mret []
  | QuitLoop :: rest =>
      again ← quit_loop;
      kept ← dispatch rest;
      mret (if again : bool then QuitLoop :: kept else kept)
  end.

Definition g_main_context_iteration : M unit :=
  sources ← gets loop_sources;
  kept ← dispatch sources;
  modify (set_loop_sources kept).

(** [loop->run ()] marks the loop as running and iterates while it is.
    After the first iteration the loop has either been stopped or has
    nothing left to dispatch, and the thread waits inside the call. *)
Definition loop_run : M unit :=
  modify (set_loop_is_running true) ;;
  g_main_context_iteration ;;
  running ← gets loop_is_running;
  if running : bool then block else mret tt.

(** *** main (lines 336-378)

    The version string of the absent [version.hpp] is left out of the log
    line. *)
Definition main (cl : CommandLine) : M Z :=
  match cl with
  | BadOptions message =>
      GST_ERROR ("option parsing failed: " +:+ message +:+ nl) ;;
      exit 1
  | Options conf_file =>
      emit (Sigaction SIGSEGV) ;;
      emit (Sigaction SIGPIPE) ;;
      emit (Sigaction SIGINT) ;;
      emit (Sigaction SIGKILL) ;;
      GST_INFO "Kmsc version: " ;;
      match conf_file with
      | None => load_config DEFAULT_CONFIG_FILE
      | Some name => load_config name
      end ;;
      emit ThreadCreate ;;
      loop_run ;;
      mret 0
  end.

(** *** The running process

    While [main] waits in the loop three things happen in some order: the
    main thread wakes up and iterates the main loop, the service thread runs
    [create_media_server_service], and signals are delivered on either
    thread.  [sigaction] succeeds for SIGSEGV, SIGPIPE and SIGINT;
    SIGKILL cannot be caught and kills the process. *)

Definition after_handler (r : Result unit) : Status :=
  match r with
  | Ret _ => Running
  | Exit code => Exited code
  | _ => Aborted
  end.

Definition deliver (sig si_addr : Z) (stack : list Frame) (s : System)
  : option System :=
  if decide (sig ∈ [SIGSEGV; SIGPIPE; SIGINT]) then
    let '(r, p) := bt_sighandler sig si_addr stack (process s) in
    Some {| process := p; status := after_handler r; worker := worker s |}
  else if decide (sig = SIGKILL) then
    Some {| process := process s; status := Killed SIGKILL;
            worker := worker s |}
  else None.

(** The loop of [loop->run ()] runs while [is_running]; when it ends,
    [main] returns 0. *)
Definition iterate (s : System) : System :=
  let '(_, p) := g_main_context_iteration (process s) in
  {| process := p;
     status := if loop_is_running p then Running else Exited 0;
     worker := worker s |}.

(** [Glib::Thread] ends the thread quietly on [Glib::Thread::Exit]; any
    other exception that leaves the thread function ends the process. *)
Definition run_service (s : System) : option System :=
  match worker s with
  | Some _ => None
  | None =>
      let '(r, p) := create_media_server_service (process s) in
      Some {| process := p;
              status := match r with
                        | Throw ThreadExit | Ret _ | Blocked => Running
                        | Exit code => Exited code
                        | Throw _ | Segv => Aborted
                        end;
              worker := Some r |}
  end.

Definition step (a : Action) (s : System) : option System :=
  match status s with
  | Running =>
      match a with
      | Deliver _ sig si_addr stack => deliver sig si_addr stack s
      | Iterate => Some (iterate s)
      | RunService => run_service s
      end
  | _ => None
  end.

Fixpoint run (actions : list Action) (s : System) : option System :=
  match actions with
  | [] => Some s
  | a :: rest => s' ← step a s; run rest s'
  end.

(** The process from its start to the point where [main] waits inside
    [loop->run ()].  A null-pointer fault during start-up finds the handler
    of SIGSEGV installed. *)
Definition boot (cl : CommandLine) (fs : gmap string string)
    (stack : list Frame) : System :=
  match main cl (initial_process fs) with
  | (Blocked, p) => {| process := p; status := Running; worker := None |}
  | (Ret code, p) | (Exit code, p) =>
      {| process := p; status := Exited code; worker := None |}
  | (Segv, p) =>
      let '(r, p') := bt_sighandler SIGSEGV 0 stack p in
      {| process := p';
         status := match r with Exit code => Exited code | _ => Aborted end;
         worker := None |}
  | (Throw _, p) => {| process := p; status := Aborted; worker := None |}
  end.

End Program.

(** ** Notions used in the statements *)

(** Two states that differ at most in the trace of events and in the cached
    executable name. *)
Record same_state (p p' : Process) : Prop := {
  same_serverAddress : serverAddress p' = serverAddress p;
  same_serverServicePort : serverServicePort p' = serverServicePort p;
  same_sdpPattern : sdpPattern p' = sdpPattern p;
  same_configFile : configFile p' = configFile p;
  same_p_server : p_server p' = p_server p;
  same_loop_is_running : loop_is_running p' = loop_is_running p;
  same_loop_sources : loop_sources p' = loop_sources p;
  same_files : files p' = files p
}.

(** The events that make up the diagnostic output of the handler. *)
Definition is_diagnostic (ev : Event) : Prop :=
  match ev with
  | Stdout _ | Shell _ => True
  | _ => False
  end.

(** The main loop runs and no source is attached to it. *)
Definition loop_idle (s : System) : Prop :=
  loop_is_running (process s) = true /\ loop_sources (process s) = [].

Definition is_interrupt (a : Action) : Prop :=
  match a with
  | Deliver _ sig _ _ => sig = SIGINT
  | _ => False
  end.

(** What the specification says about a broken pipe, on the states before
    and after the
    delivery: the process goes on, and the debug log line is all that
    happened. *)
Definition sigpipe_only_logs (s s' : System) : Prop :=
  status s' = status s /\
  loop_is_running (process s') = loop_is_running (process s) /\
  events (process s') = events (process s) ++ [Log LDEBUG "Ignore sigpipe"].

Section Notions.

Context `{cfg : MediaConfig} `{os : Platform}.
Import KeyFileOps.

(** What the specification says about the readiness handshake, on the
    trace of a run: the parent is signalled exactly when the listening
    socket was bound. *)
Definition readiness_iff_bound (trace : list Event) : Prop :=
  Kill getppid SIGCONT ∈ trace <-> exists port, Bound port ∈ trace.

(** What the specification says about the end of the accept loop, on a
    run of the process: the service thread runs until its accept loop has
    ended, and some
    number of iterations of the main loop later the loop has stopped and
    [main] has returned 0. *)
Definition accept_loop_exit_stops_loop (s : System) : Prop :=
  exists (n : nat) (s' : System),
    run (RunService :: replicate n Iterate) s = Some s' /\
    AcceptLoopClosed ∈ events (process s') /\
    status s' = Exited 0.

(** What [get_string] and [get_integer] make of a key. *)
Definition string_of_key (kf : KeyFile) (g k : string) : option string :=
  raw_value kf g k ≫= g_key_file_parse_value_as_string.

Definition integer_of_key (kf : KeyFile) (g k : string) : option Z :=
  raw_value kf g k ≫= g_key_file_parse_value_as_integer.

Definition valid_port (n : Z) : Prop := 1 <= n <= 65535.

(** The port of a key file, when its key holds an integer in range. *)
Definition port_of_key (kf : KeyFile) : option Z :=
  n ← integer_of_key kf SERVER_GROUP MEDIA_SERVER_SERVICE_PORT_KEY;
  if decide (valid_port n) then Some n else None.

Definition address_of_key (kf : KeyFile) : option string :=
  string_of_key kf SERVER_GROUP MEDIA_SERVER_ADDRESS_KEY.

(** The key file after the address, and after the port, was resolved. *)
Definition with_address (kf : KeyFile) : KeyFile :=
  match address_of_key kf with
  | Some _ => kf
  | None =>
      set_value kf SERVER_GROUP MEDIA_SERVER_ADDRESS_KEY
        (g_key_file_parse_string_as_value MEDIA_SERVER_ADDRESS)
  end.

Definition with_port (kf : KeyFile) : KeyFile :=
  match port_of_key kf with
  | Some _ => kf
  | None =>
      set_value kf SERVER_GROUP MEDIA_SERVER_SERVICE_PORT_KEY
        (pretty MEDIA_SERVER_SERVICE_PORT)
  end.

(** The four parts of [load_config] that follow a successful load. *)
Definition resolve_address : M unit :=
  try_catch_KeyFileError
    (address ← get_string SERVER_GROUP MEDIA_SERVER_ADDRESS_KEY;
     modify (set_serverAddress address))
    (fun err =>
       emit (LogWhat LINFO err) ;;
       GST_INFO "Setting default address" ;;
       set_string SERVER_GROUP MEDIA_SERVER_ADDRESS_KEY MEDIA_SERVER_ADDRESS ;;
       modify (set_serverAddress MEDIA_SERVER_ADDRESS)).

Definition resolve_port : M unit :=
  try_catch_KeyFileError
    (port ← get_integer SERVER_GROUP MEDIA_SERVER_SERVICE_PORT_KEY;
     check_port port ;;
     modify (set_serverServicePort port))
    (fun err =>
       emit (LogWhat LINFO err) ;;
       GST_INFO "Setting default server port" ;;
       set_integer SERVER_GROUP MEDIA_SERVER_SERVICE_PORT_KEY
         MEDIA_SERVER_SERVICE_PORT ;;
       modify (set_serverServicePort MEDIA_SERVER_SERVICE_PORT)).

Definition resolve_sdp_pattern : M unit :=
  try_catch_KeyFileError
    (pattern ← load_sdp_pattern;
     modify (set_sdpPattern pattern) ;;
     GST_DEBUG ("SDP: 
" +:+ gst_sdp_message_as_text pattern))
    (fun err =>
       emit (LogWhat LWARNING err) ;;
       GST_WARNING "Wrong codec configuration, communication won't be possible").

Definition save_config (file_name : string) : M unit :=
  data ← to_data;
  ofstream file_name data ;;
  GST_INFO "Configuration loaded successfully" ;;
  data' ← to_data;
  GST_DEBUG ("Final config file:
" +:+ data').

Definition resolve_keys (file_name : string) : M unit :=
  resolve_address ;; resolve_port ;; resolve_sdp_pattern ;;
  save_config file_name.

(** The first part of [load_config]: the file is created when it is
    missing, then loaded; a failure installs the defaults. *)
Definition open_config (file_name : string) : M bool :=
  try_catch_Glib_Error
    (ok ← load_from_file file_name;
     if negb ok then
       GST_WARNING (loading_default_warning file_name) ;;
       set_default_server_config ;;
       mret false
     else mret true)
    (fun ex =>
       emit (LogWhat LWARNING ex) ;;
       GST_WARNING (loading_default_warning file_name) ;;
       set_default_server_config ;;
       mret false).

(** The file system as [load_from_file] finds it. *)
Definition with_config_file (file_name : string) (fs : gmap string string)
  : gmap string string :=
  match fs !! file_name with
  | Some _ => fs
  | None => <[file_name := ""]> fs
  end.

(** Fields that a part of [load_config] leaves alone. *)
Record keeps (p p' : Process) : Prop := {
  keeps_serverAddress : serverAddress p' = serverAddress p;
  keeps_serverServicePort : serverServicePort p' = serverServicePort p;
  keeps_configFile : configFile p' = configFile p;
  keeps_files : files p' = files p
}.

(** The SDP pattern key names a file that cannot be opened. *)
Definition sdp_pattern_file_missing (kf : KeyFile) (fs : gmap string string)
  : Prop :=
  gst_sdp_message_new = true /\
  exists name,
    string_of_key kf SERVER_GROUP SDP_PATTERN_KEY = Some name /\
    fs !! name = None.

(** The lines [load_config] never writes: comments, keys of other groups
    and, in the server group, every key but address and port. *)
Definition untouched (ln : option string * KeyFilePair) : Prop :=
  match ln with
  | (Some g, KeyValue k _) =>
      ~ (g = SERVER_GROUP /\
         (k = MEDIA_SERVER_ADDRESS_KEY \/ k = MEDIA_SERVER_SERVICE_PORT_KEY))
  | _ => True
  end.

#[global] Instance untouched_dec ln : Decision (untouched ln).
Proof. destruct ln as [[g|] [c|k v]]; simpl; apply _. Defined.

End Notions.

(** ** Notions used in further statements *)

(** A computation that leaves a component of the process as it was,
    however it ends. *)
Definition preserves {A X : Type} (f : Process -> X) (m : M A) : Prop :=
  forall p, f (m p).2 = f p.

(** The commands handed to [system] in a trace. *)
Definition shell_commands (trace : list Event) : list string :=
  omap (fun ev => match ev with Shell cmd => Some cmd | _ => None end) trace.

(** A computation that hands at most [n] commands to [system], however it
    ends. *)
Definition runs_at_most {A : Type} (n : nat) (m : M A) : Prop :=
  forall p, exists out,
    events (m p).2 = events p ++ out /\
    (length (shell_commands out) <= n)%nat.

Section MoreNotions.

Context `{cfg : MediaConfig} `{os : Platform}.

(** The name [getExecutableName] gives: the cached one, else the one
    [readlink] finds. *)
Definition executable_name (p : Process) : option string :=
  match exe p with
  | Some name => Some name
  | None => readlink_proc_exe
  end.




End MoreNotions.

(** ** A concrete platform

    A small key-file reader and printer and a stand-in for the SDP parser,
    used to run the functions above on examples.  The reader knows comment
    lines (empty or starting with [#]), group headers and [key=value]
    lines. *)

Module Sample.

#[export] Instance config : MediaConfig := {|
  DEFAULT_CONFIG_FILE := "/etc/kurento/kurento.conf";
  MEDIA_SERVER_ADDRESS := "localhost";
  MEDIA_SERVER_SERVICE_PORT := 9090;
  SERVER_GROUP := "Server";
  MEDIA_SERVER_ADDRESS_KEY := "serverAddress";
  MEDIA_SERVER_SERVICE_PORT_KEY := "serverPort";
  SDP_PATTERN_KEY := "sdpPattern"
|}.

Definition newline : ascii := "010"%char.

Fixpoint split_lines (cur s : string) : list string :=
  match s with
  | EmptyString => if decide (cur = "") then [] else [cur]
  | String c rest =>
      if decide (c = newline) then cur :: split_lines "" rest
      else split_lines (cur +:+ String c "") rest
  end.

Fixpoint split_key_value (key s : string) : option (string * string) :=
  match s with
  | EmptyString => None
  | String c rest =>
      if decide (c = "="%char) then Some (key, rest)
      else split_key_value (key +:+ String c "") rest
  end.

Fixpoint group_header (name s : string) : option string :=
  match s with
  | EmptyString => None
  | String c EmptyString => if decide (c = "]"%char) then Some name else None
  | String c rest => group_header (name +:+ String c "") rest
  end.

Definition add_pair (kf : KeyFile) (pr : KeyFilePair) : KeyFile :=
  match kf with
  | [] => [{| group_name := None; key_value_pairs := [pr] |}]
  | grp :: rest =>
      {| group_name := group_name grp;
         key_value_pairs := pr :: key_value_pairs grp |} :: rest
  end.

Definition in_named_group (kf : KeyFile) : bool :=
  match kf with
  | grp :: _ => bool_decide (is_Some (group_name grp))
  | [] => false
  end.

Fixpoint parse_lines (kf : KeyFile) (ls : list string) : LoadResult :=
  match ls with
  | [] => Loaded kf
  | l :: rest =>
      match l with
      | EmptyString => parse_lines (add_pair kf (Comment l)) rest
      | String c body =>
          if decide (c = "#"%char) then
            parse_lines (add_pair kf (Comment l)) rest
          else if decide (c = "["%char) then
            match group_header "" body with
            | Some g =>
                parse_lines
                  ({| group_name := Some g; key_value_pairs := [] |} :: kf)
                  rest
            | None => LoadError PARSE
            end
          else
            match split_key_value "" l with
            | Some (k, v) =>
                if in_named_group kf
                then parse_lines (add_pair kf (KeyValue k v)) rest
                else LoadError GROUP_NOT_FOUND
            | None => LoadError PARSE
            end
      end
  end.

Definition load_from_data (data : string) : LoadResult :=
  parse_lines [] (split_lines "" data).

Definition print_pair (pr : KeyFilePair) : string :=
  match pr with
  | Comment c => c +:+ String newline ""
  | KeyValue k v => k +:+ "=" +:+ v +:+ String newline ""
  end.

Definition print_group (grp : KeyFileGroup) : string :=
  match group_name grp with
  | Some g => "[" +:+ g +:+ "]" +:+ String newline ""
  | None => ""
  end +:+ foldr (fun pr acc => print_pair pr +:+ acc) ""
            (rev (key_value_pairs grp)).

Definition print_key_file (kf : KeyFile) : string :=
  foldr (fun grp acc => print_group grp +:+ acc) "" (rev kf).

Definition value_as_integer (v : string) : option Z :=
  match v with
  | EmptyString => None
  | _ =>
      match NilEmpty.int_of_string v with
      | Some d =>
          let n := Z.of_int d in
          if (- 2 ^ 31 <=? n) && (n <? 2 ^ 31) then Some n else None
      | None => None
      end
  end.

(** An SDP text is taken to be well formed when it starts with [v=]. *)
Definition sdp_parse (text : string) : option GstSDPMessage :=
  if String.prefix "v=" text
  then Some {| gst_sdp_message_text := text |} else None.

Definition platform (serve : ServeBehaviour) : Platform := {|
  g_key_file_load_from_data := load_from_data;
  g_key_file_to_data := print_key_file;
  g_key_file_parse_value_as_string := Some;
  g_key_file_parse_string_as_value := id;
  g_key_file_parse_value_as_integer := value_as_integer;
  gst_sdp_message_new := true;
  gst_sdp_message_parse_buffer := sdp_parse;
  getppid := 1;
  readlink_proc_exe := Some "/usr/bin/kurento";
  serve_behaviour := serve
|}.

(** *** Example inputs *)

Definition unlines (ls : list string) : string :=
  foldr (fun l acc => l +:+ String newline acc) "" ls.

Definition conf : string := "/etc/kurento/kurento.conf".

(** A port out of range, no address, and lines of no concern to the
    loader. *)
Definition text_bad_port : string :=
  unlines ["# Kurento"; "[Server]"; "serverPort=70000"; "# keep me";
           "other=1"; "[Extra]"; "x=y"].

Definition key_file_bad_port : KeyFile :=
  [ {| group_name := Some "Extra"; key_value_pairs := [KeyValue "x" "y"] |};
    {| group_name := Some "Server";
       key_value_pairs := [KeyValue "other" "1"; Comment "# keep me";
                           KeyValue "serverPort" "70000"] |};
    {| group_name := None; key_value_pairs := [Comment "# Kurento"] |} ].

(** A valid port that is not the compiled default. *)
Definition text_port_8080 : string :=
  unlines ["[Server]"; "serverAddress=media.example.org"; "serverPort=8080"].

Definition key_file_port_8080 : KeyFile :=
  [ {| group_name := Some "Server";
       key_value_pairs := [KeyValue "serverPort" "8080";
                           KeyValue "serverAddress" "media.example.org"] |} ].

(** An SDP pattern key that names a file that is not there. *)
Definition text_missing_pattern : string :=
  unlines ["[Server]"; "serverPort=0"; "sdpPattern=/etc/kurento/pattern.sdp"].

Definition key_file_missing_pattern : KeyFile :=
  [ {| group_name := Some "Server";
       key_value_pairs := [KeyValue "sdpPattern" "/etc/kurento/pattern.sdp";
                           KeyValue "serverPort" "0"] |} ].

Definition started (text : string) : Process :=
  initial_process {[ conf := text ]}.

(** The call stack the handler finds: its own frame, a frame of a shared
    library and a frame without a module. *)
Definition stack : list Frame :=
  [ {| frame_address := 4198400;
       frame_symbol := "/usr/bin/kurento(bt_sighandler+0x10) [0x401000]" |};
    {| frame_address := 8192;
       frame_symbol := "/lib/libc.so.6(+0x2000) [0x2000]" |};
    {| frame_address := 255; frame_symbol := "[0xff]" |} ].

(** The process of the default command line on an empty file system, as
    it enters the main loop. *)
Definition running (serve : ServeBehaviour) : System :=
  boot (cfg := config) (os := platform serve) (Options None) ∅ stack.

(** A run in which the accept loop ends and a pipe breaks, but nobody
    interrupts. *)
Definition actions_without_interrupt : list Action :=
  [RunService; Iterate; Deliver ServiceThread SIGPIPE 0 stack; Iterate].

(** *** Further example inputs *)

(** The same platform on a system where [/proc] cannot be read. *)
Definition platform_without_proc : Platform := {|
  g_key_file_load_from_data := load_from_data;
  g_key_file_to_data := print_key_file;
  g_key_file_parse_value_as_string := Some;
  g_key_file_parse_string_as_value := id;
  g_key_file_parse_value_as_integer := value_as_integer;
  gst_sdp_message_new := true;
  gst_sdp_message_parse_buffer := sdp_parse;
  getppid := 1;
  readlink_proc_exe := None;
  serve_behaviour := ServesForever
|}.

(** A complete configuration and the SDP pattern file it names. *)
Definition pattern_file : string := "/etc/kurento/pattern.sdp".

Definition text_pattern : string := unlines ["v=0"; "m=audio 0 RTP/AVP 0"].

Definition text_complete : string :=
  unlines ["[Server]"; "serverAddress=10.0.0.1"; "serverPort=8080";
           "sdpPattern=/etc/kurento/pattern.sdp"].

Definition key_file_complete : KeyFile :=
  [ {| group_name := Some "Server";
       key_value_pairs := [KeyValue "sdpPattern" "/etc/kurento/pattern.sdp";
                           KeyValue "serverPort" "8080";
                           KeyValue "serverAddress" "10.0.0.1"] |} ].

Definition started_complete : Process :=
  initial_process {[ conf := text_complete; pattern_file := text_pattern ]}.


(** Two interrupts, one on each thread. *)
Definition two_interrupts : list Action :=
  [Deliver MainThread SIGINT 0 stack; Deliver ServiceThread SIGINT 0 stack].

End Sample.

(** * Properties *)

(** ** Running the monad *)

Lemma bind_Ret {A B} (m : M A) (f : A -> M B) (p p' : Process) (a : A) :
  m p = (Ret a, p') -> (m ≫= f) p = f a p'.
Proof. intros H. unfold mbind, M_bind. by rewrite H. Qed.

Lemma bind_Segv {A B} (m : M A) (f : A -> M B) (p p' : Process) :
  m p = (Segv, p') -> (m ≫= f) p = (Segv, p').
Proof. intros H. unfold mbind, M_bind. by rewrite H. Qed.

Lemma bind_Exit {A B} (m : M A) (f : A -> M B) (p p' : Process) (code : Z) :
  m p = (Exit code, p') -> (m ≫= f) p = (Exit code, p').
Proof. intros H. unfold mbind, M_bind. by rewrite H. Qed.

Lemma same_state_refl (p : Process) : same_state p p.
Proof. by split. Qed.

Lemma same_state_trans (p1 p2 p3 : Process) :
  same_state p1 p2 -> same_state p2 p3 -> same_state p1 p3.
Proof. intros [] []. split; congruence. Qed.

Ltac run_monad :=
  repeat (progress (unfold mbind, M_bind, mret, M_ret, gets, modify, emit,
                      exit, throw, segfault, block,
                      GST_DEBUG, GST_INFO, GST_WARNING, GST_ERROR;
                    simpl)).

(** Membership of an event in an explicit trace that holds it. *)
Ltac in_trace :=
  repeat first [apply list_elem_of_here | apply list_elem_of_further].

(** Membership of an event in an explicit trace that does not hold it. *)
Ltac not_in_trace :=
  let H := fresh in
  intros; intros H;
  repeat (apply elem_of_cons in H as [H | H]; [discriminate H |]);
  by apply elem_of_nil in H.

(** ** The service thread *)

Section Service.

Context `{cfg : MediaConfig} `{os : Platform}.

Lemma serve_events (port : Z) (p : Process) :
  exists outcome,
    events (serve port p).2 = events p ++ outcome /\
    (forall pid sig, Kill pid sig ∉ outcome) /\
    (exists rest, outcome = Bound port :: rest \/
                  outcome = BindFailed port :: rest).
Proof.
  unfold serve. destruct serve_behaviour; simpl.
  - exists [BindFailed port]. split_and!; [done | not_in_trace | eauto].
  - exists [Bound port]. split_and!; [done | not_in_trace | eauto].
  - exists [Bound port; AcceptLoopClosed].
    split_and!; [by rewrite <- app_assoc | not_in_trace | eauto].
Qed.

(** C1, as the code has it: in every run of the service thread the
    parent is signalled exactly once, and this happens before [serve] is
    called, so before the port is bound and whether or not the bind
    succeeds. *)
Theorem readiness_sent_before_bind_attempt (p : Process) :
  exists outcome,
    events (create_media_server_service p).2 =
      events p ++ [ThreadManagerStart 15;
                   Log LINFO "Starting MediaServerService";
                   Kill getppid SIGCONT] ++ outcome /\
    (forall pid sig, Kill pid sig ∉ outcome) /\
    (exists rest, outcome = Bound MEDIA_SERVER_SERVICE_PORT :: rest \/
                  outcome = BindFailed MEDIA_SERVER_SERVICE_PORT :: rest).
Proof.
  unfold create_media_server_service, serve.
  destruct serve_behaviour; simpl; rewrite <- ?app_assoc; simpl.
  - exists [BindFailed MEDIA_SERVER_SERVICE_PORT].
    split_and!; [done | not_in_trace | eauto].
  - exists [Bound MEDIA_SERVER_SERVICE_PORT].
    split_and!; [done | not_in_trace | eauto].
  - exists [Bound MEDIA_SERVER_SERVICE_PORT; AcceptLoopClosed;
            Log LINFO "MediaServerService stopped finishing thread"].
    split_and!; [done | not_in_trace | eauto].
Qed.

(** The port of the server object is the compiled constant, whatever
    [load_config] left in [serverServicePort]. *)
Lemma service_port_is_compiled_default (p : Process) :
  p_server (create_media_server_service p).2 = Some MEDIA_SERVER_SERVICE_PORT.
Proof.
  unfold create_media_server_service, serve.
  by destruct serve_behaviour.
Qed.

(** Whatever the service thread binds, or fails to bind, is the compiled
    constant. *)
Lemma service_binds_compiled_default (p : Process) :
  exists trace,
    events (create_media_server_service p).2 = events p ++ trace /\
    (forall q, Bound q ∈ trace \/ BindFailed q ∈ trace ->
               q = MEDIA_SERVER_SERVICE_PORT) /\
    (Bound MEDIA_SERVER_SERVICE_PORT ∈ trace \/
     BindFailed MEDIA_SERVER_SERVICE_PORT ∈ trace).
Proof.
  unfold create_media_server_service, serve.
  destruct serve_behaviour; run_monad; rewrite <- ?app_assoc; simpl;
    eexists; (split; [reflexivity |]);
    (split; [| rewrite !elem_of_cons; auto 10]);
    intros q; rewrite !elem_of_cons, !elem_of_nil;
    intros [H | H]; decompose [or] H; congruence || done.
Qed.

End Service.

(** ** Signals and the main loop *)

Section Signals.

Context `{cfg : MediaConfig} `{os : Platform}.

Lemma getExecutableName_cases (p : Process) :
  let '(r, p') := getExecutableName p in
  same_state p p' /\
  ((exists name, r = Ret name /\ events p' = events p) \/
   (r = Exit 1 /\ readlink_proc_exe = None)).
Proof.
  unfold getExecutableName, initialiseExecutableName.
  run_monad. destruct (exe p) as [name|].
  - split; [apply same_state_refl | left; by exists name].
  - destruct readlink_proc_exe as [name|]; run_monad.
    + split; [by split | left; by exists name].
    + split; [by split | by right].
Qed.

(** The loop of the handler changes nothing but the output and the cached
    executable name, and it leaves only by returning or through the
    [exit (1)] of [initialiseExecutableName]. *)
Lemma print_frames_cases (frames : list Frame) :
  forall (i : Z) (p : Process),
    let '(r, p') := print_frames i frames p in
    same_state p p' /\
    ((r = Ret tt /\
      exists out, events p' = events p ++ out /\
                  Forall is_diagnostic out /\
                  length out = (2 * length frames)%nat) \/
     (r = Exit 1 /\ readlink_proc_exe = None)).
Proof.
  induction frames as [|fr rest IH]; intros i p.
  - simpl. split; [apply same_state_refl | left]. split; [done |].
    exists []. by rewrite app_nil_r.
  - cbn [print_frames]. unfold mbind at 1 2, M_bind at 1 2.
    unfold emit at 1, modify at 1.
    set (p1 := set_events _ p).
    assert (Hp1 : same_state p p1) by by split.
    destruct (before_paren "" (frame_symbol fr)) as [module|].
    + unfold mret at 1, M_ret at 1.
      unfold mbind at 1, M_bind at 1, emit at 1, modify at 1.
      set (p2 := set_events _ p1).
      assert (Hp2 : same_state p p2) by by split.
      specialize (IH (i + 1) p2).
      destruct (print_frames (i + 1) rest p2) as [r p'].
      destruct IH as [Hs [[-> (out & Hev & Hout & Hlen)] | [-> Hnone]]].
      * split; [by eapply same_state_trans | left]. split; [done |].
        eexists (_ :: _ :: out). split_and!.
        -- rewrite Hev. subst p2 p1. simpl. by rewrite <- !app_assoc.
        -- by repeat constructor.
        -- simpl. lia.
      * split; [by eapply same_state_trans | by right].
    + pose proof (getExecutableName_cases p1) as Hexe.
      destruct (getExecutableName p1) as [r1 p1'].
      destruct Hexe as [Hs1 [(name & -> & Hev1) | [-> Hnone]]].
      * unfold mbind at 1, M_bind at 1, emit at 1, modify at 1.
        set (p2 := set_events _ p1').
        assert (Hp2 : same_state p p2).
        { eapply same_state_trans; [exact Hp1 |].
          eapply same_state_trans; [exact Hs1 | by split]. }
        specialize (IH (i + 1) p2).
        destruct (print_frames (i + 1) rest p2) as [r p'].
        destruct IH as [Hs [[-> (out & Hev & Hout & Hlen)] | [-> Hnone]]].
        -- split; [by eapply same_state_trans | left]. split; [done |].
           eexists (_ :: _ :: out). split_and!.
           ++ rewrite Hev. subst p2. simpl. rewrite Hev1. subst p1. simpl.
              by rewrite <- !app_assoc.
           ++ by repeat constructor.
           ++ simpl. lia.
        -- split; [by eapply same_state_trans | by right].
      * split; [by eapply same_state_trans | by right].
Qed.

(** What the handler does for a signal that is neither SIGSEGV nor
    an interrupt: it prints, and it returns only for SIGPIPE. *)
Lemma bt_sighandler_other (sig si_addr : Z) (stack : list Frame)
    (p : Process) :
  sig <> SIGSEGV -> sig <> SIGKILL -> sig <> SIGINT ->
  let '(r, p') := bt_sighandler sig si_addr stack p in
  same_state p p' /\
  ((r = (if sig =? SIGPIPE then Ret tt else Exit sig) /\
    exists out,
      events p' = events p ++
        Stdout ("Got signal " +:+ pretty sig +:+ nl) ::
        Stdout (tab +:+ "[bt] Execution path:" +:+ nl) :: out ++
        (if sig =? SIGPIPE then [Log LDEBUG "Ignore sigpipe"] else []) /\
      Forall is_diagnostic out /\
      length out = (2 * length (drop 1 (take 35 stack)))%nat) \/
   (r = Exit 1 /\ readlink_proc_exe = None)).
Proof.
  intros Hsegv Hkill Hint. unfold bt_sighandler.
  apply Z.eqb_neq in Hsegv, Hkill, Hint. rewrite Hsegv, Hkill, Hint.
  run_monad.
  set (p1 := set_events _ (set_events _ p)).
  assert (Hp1 : same_state p p1) by by split.
  pose proof (print_frames_cases (drop 1 (take 35 stack)) 1 p1) as Hpf.
  destruct (print_frames 1 (drop 1 (take 35 stack)) p1) as [r p2].
  destruct Hpf as [Hs [[-> (out & Hev & Hout & Hlen)] | [-> Hnone]]].
  - destruct (sig =? SIGPIPE) eqn:Hpipe.
    + split.
      { eapply same_state_trans; [exact Hp1 |].
        eapply same_state_trans; [exact Hs | by split]. }
      left. split; [done |]. exists out. split_and!; [| done | done].
      simpl. rewrite Hev. subst p1. simpl.
      rewrite <- !app_assoc. simpl. done.
    + split; [by eapply same_state_trans |].
      left. split; [done |]. exists out. split_and!; [| done | done].
      rewrite Hev. subst p1. simpl.
      rewrite <- !app_assoc. simpl. by rewrite app_nil_r.
  - split; [by eapply same_state_trans | by right].
Qed.

Lemma bt_sighandler_segv (si_addr : Z) (stack : list Frame) (p : Process) :
  let '(r, p') := bt_sighandler SIGSEGV si_addr stack p in
  same_state p p' /\ (r = Exit SIGSEGV \/ r = Exit 1).
Proof.
  unfold bt_sighandler. run_monad.
  set (p1 := set_events _ (set_events _ p)).
  assert (Hp1 : same_state p p1) by by split.
  pose proof (print_frames_cases (drop 1 (take 35 stack)) 1 p1) as Hpf.
  destruct (print_frames 1 (drop 1 (take 35 stack)) p1) as [r p2].
  destruct Hpf as [Hs [[-> _] | [-> _]]].
  - split; [by eapply same_state_trans | by left].
  - split; [by eapply same_state_trans | by right].
Qed.

(** For an interrupt the handler attaches one idle source and returns:
    nothing is printed and the loop is not touched. *)
Lemma bt_sighandler_interrupt (si_addr : Z) (stack : list Frame)
    (p : Process) :
  bt_sighandler SIGINT si_addr stack p =
    (Ret tt, set_loop_sources (loop_sources p ++ [QuitLoop]) p).
Proof. reflexivity. Qed.

(** Dispatching the attached sources removes them all, and stops the loop
    when there was one. *)
Lemma dispatch_all (sources : list Callback) :
  forall p : Process,
    dispatch sources p =
      (Ret [], match sources with
               | [] => p
               | _ :: _ => set_loop_is_running false p
               end).
Proof.
  induction sources as [|[] rest IH]; intros p; [done |].
  cbn [dispatch]. unfold quit_loop. run_monad.
  rewrite IH. by destruct rest.
Qed.

Lemma iterate_idle (s : System) :
  loop_is_running (process s) = true -> loop_sources (process s) = [] ->
  status (iterate s) = Running /\
  loop_is_running (process (iterate s)) = true /\
  loop_sources (process (iterate s)) = [].
Proof.
  intros Hrun Hsrc. unfold iterate, g_main_context_iteration.
  run_monad. rewrite Hsrc. simpl. by rewrite Hrun.
Qed.

Lemma iterate_pending (s : System) :
  loop_sources (process s) <> [] ->
  status (iterate s) = Exited 0 /\
  loop_sources (process (iterate s)) = [] /\
  events (process (iterate s)) = events (process s).
Proof.
  intros Hsrc. unfold iterate, g_main_context_iteration.
  run_monad. rewrite dispatch_all.
  by destruct (loop_sources (process s)).
Qed.

(** The service thread touches neither the loop nor its sources, and it
    never makes the process exit with a status. *)
Lemma create_media_server_service_loop (p : Process) :
  let '(r, p') := create_media_server_service p in
  loop_is_running p' = loop_is_running p /\
  loop_sources p' = loop_sources p /\
  (r = Throw ThreadExit \/ r = Throw TException \/ r = Blocked).
Proof.
  unfold create_media_server_service, serve.
  destruct serve_behaviour; run_monad; auto.
Qed.

(** Iterations of an idle loop leave it idle. *)
Lemma run_iterations_idle (n : nat) :
  forall s s' : System,
    status s = Running ->
    loop_is_running (process s) = true -> loop_sources (process s) = [] ->
    run (replicate n Iterate) s = Some s' ->
    status s' = Running.
Proof.
  induction n as [|n IH]; intros s s' Hst Hrun Hsrc; simpl.
  - by intros [= <-].
  - unfold step. rewrite Hst. simpl.
    destruct (iterate_idle s Hrun Hsrc) as (? & ? & ?). by apply IH.
Qed.

Lemma run_stopped (actions : list Action) (s s' : System) :
  status s <> Running -> run actions s = Some s' -> s' = s.
Proof.
  intros Hst. destruct actions as [|a rest]; simpl; [congruence |].
  unfold step. by destruct (status s).
Qed.

End Signals.

(** ** The running process *)

Section RunningProcess.

Context `{cfg : MediaConfig} `{os : Platform}.

(** C6, as the code has it: a SIGPIPE makes the handler print the
    ["Got signal"] line and the backtrace, two outputs for each frame
    after the first, before it logs at debug level.  The process goes on
    and the main loop and its sources are as before, provided the name of
    the executable can be read. *)
Theorem sigpipe_prints_backtrace_and_continues
    (s : System) (thread : Thread) (si_addr : Z) (stack : list Frame) :
  status s = Running ->
  is_Some readlink_proc_exe ->
  exists s' out,
    step (Deliver thread SIGPIPE si_addr stack) s = Some s' /\
    status s' = Running /\
    loop_is_running (process s') = loop_is_running (process s) /\
    loop_sources (process s') = loop_sources (process s) /\
    events (process s') =
      events (process s) ++
        Stdout ("Got signal 13" +:+ nl) ::
        Stdout (tab +:+ "[bt] Execution path:" +:+ nl) :: out ++
        [Log LDEBUG "Ignore sigpipe"] /\
    Forall is_diagnostic out /\
    length out = (2 * length (drop 1 (take 35 stack)))%nat.
Proof.
  intros Hrun [name Hname]. unfold step. rewrite Hrun. unfold deliver.
  rewrite decide_True by (rewrite !elem_of_cons; auto).
  pose proof (bt_sighandler_other SIGPIPE si_addr stack (process s)) as H.
  destruct (bt_sighandler SIGPIPE si_addr stack (process s)) as [r p'].
  destruct H as [Hs [[-> (out & Hev & Hout & Hlen)] | [_ Hnone]]];
    [done .. | | congruence].
  eexists _, out. split; [reflexivity |]. simpl.
  destruct Hs. auto 10.
Qed.

(** C7: an interrupt, delivered on either thread, attaches exactly one
    [quit_loop] source and returns without any output or change to the
    loop; the next iteration of the main loop dispatches it, the loop
    ends and [main] returns 0. *)
Theorem interrupt_stops_loop_in_one_iteration
    (s : System) (thread : Thread) (si_addr : Z) (stack : list Frame) :
  status s = Running ->
  exists s1 s2,
    step (Deliver thread SIGINT si_addr stack) s = Some s1 /\
    status s1 = Running /\
    events (process s1) = events (process s) /\
    loop_is_running (process s1) = loop_is_running (process s) /\
    loop_sources (process s1) = loop_sources (process s) ++ [QuitLoop] /\
    step Iterate s1 = Some s2 /\
    status s2 = Exited 0 /\
    loop_sources (process s2) = [] /\
    events (process s2) = events (process s).
Proof.
  intros Hrun. unfold step at 1. rewrite Hrun. unfold deliver.
  rewrite decide_True by (rewrite !elem_of_cons; auto).
  rewrite bt_sighandler_interrupt.
  set (s1 := {| process := set_loop_sources
                             (loop_sources (process s) ++ [QuitLoop])
                             (process s);
                status := after_handler (Ret tt); worker := worker s |}).
  destruct (iterate_pending s1) as (Hst & Hsrc & Hev).
  { subst s1. simpl. by destruct (loop_sources (process s)). }
  exists s1, (iterate s1). by split_and!.
Qed.

(** C8, as the code has it: the loop is asked to stop by the interrupt
    path alone.  In a run without interrupt, whatever else happens (the
    accept loop of the service ending, other signals, iterations of the
    loop), [main] does not return, and as long as the process runs the
    loop runs with no source attached. *)
Theorem only_interrupt_stops_loop (actions : list Action) :
  forall s s' : System,
    status s = Running ->
    loop_idle s ->
    Forall (fun a => ~ is_interrupt a) actions ->
    run actions s = Some s' ->
    status s' <> Exited 0 /\ (status s' = Running -> loop_idle s').
Proof.
  induction actions as [|a rest IH]; intros s s' Hrun Hidle Hno Hsteps.
  - simpl in Hsteps. injection Hsteps as <-. split; [congruence | done].
  - apply Forall_cons in Hno as [Ha Hrest].
    simpl in Hsteps.
    destruct (step a s) as [s1|] eqn:Hstep; [| done]. simpl in Hsteps.
    assert (Hgoal : status s1 <> Exited 0 /\ (status s1 = Running -> loop_idle s1)).
    { unfold step in Hstep. rewrite Hrun in Hstep.
      destruct a as [thread sig si_addr stack | |].
      - simpl in Ha. unfold deliver in Hstep.
        destruct (decide (sig ∈ [SIGSEGV; SIGPIPE; SIGINT])) as [Hin|_].
        + rewrite !elem_of_cons, elem_of_nil in Hin.
          destruct Hin as [-> | [-> | [-> | []]]]; [| | done].
          * pose proof (bt_sighandler_segv si_addr stack (process s)) as H.
            destruct (bt_sighandler _ _ _ _) as [r p'].
            injection Hstep as <-. simpl.
            destruct H as [_ [-> | ->]]; by split.
          * pose proof (bt_sighandler_other SIGPIPE si_addr stack (process s))
              as H.
            destruct (bt_sighandler _ _ _ _) as [r p'].
            injection Hstep as <-. simpl.
            destruct H as [Hs [[-> _] | [-> _]]]; [done .. | |];
              [| by split].
            split; [done |]. intros _. destruct Hidle, Hs.
            split; simpl; congruence.
        + destruct (decide (sig = SIGKILL)); [| done].
          injection Hstep as <-. by split.
      - injection Hstep as <-. destruct Hidle as [H1 H2].
        destruct (iterate_idle s H1 H2) as (Hst & ? & ?).
        rewrite Hst. by split.
      - unfold run_service in Hstep.
        destruct (worker s); [done |].
        pose proof (create_media_server_service_loop (process s)) as H.
        destruct (create_media_server_service (process s)) as [r p'].
        injection Hstep as <-. simpl.
        destruct H as (H1 & H2 & Hr), Hidle as [H3 H4].
        assert (loop_is_running p' = true /\ loop_sources p' = [])
          by (split; congruence).
        destruct Hr as [-> | [-> | ->]]; by split. }
    destruct (decide (status s1 = Running)) as [Hrun1|Hstop].
    + destruct Hgoal as [_ Hidle1]. by eapply IH; eauto.
    + apply run_stopped in Hsteps as ->; done.
Qed.

(** When the accept loop ends, the service thread ends with it. *)
Lemma create_media_server_service_accept_loop_exit (p : Process) :
  serve_behaviour = ServesUntilClosed ->
  let '(r, p') := create_media_server_service p in
  r = Throw ThreadExit /\ AcceptLoopClosed ∈ events p'.
Proof.
  intros Hserve. unfold create_media_server_service, serve.
  rewrite Hserve. run_monad. split; [done |].
  rewrite !elem_of_app, !elem_of_cons. auto 10.
Qed.

End RunningProcess.

(** ** Key files *)

Module KeyFileFacts.
Import KeyFileOps.

Lemma lookup_key_replace_eq (pairs : list KeyFilePair) (k v : string) :
  is_Some (lookup_key pairs k) ->
  lookup_key (replace_key pairs k v) k = Some v.
Proof.
  induction pairs as [|[c|k' v'] rest IH]; simpl; intros [x Hx]; [done | eauto |].
  destruct (decide (k' = k)) as [->|Hne]; simpl.
  - by rewrite decide_True.
  - rewrite decide_False by done. eauto.
Qed.

Lemma lookup_key_replace_ne (pairs : list KeyFilePair) (k k' v : string) :
  k <> k' -> lookup_key (replace_key pairs k v) k' = lookup_key pairs k'.
Proof.
  intros Hne. induction pairs as [|[c|k0 v0] rest IH]; simpl; [done | done |].
  destruct (decide (k0 = k)) as [->|Hne0]; simpl.
  - by rewrite !decide_False.
  - destruct (decide (k0 = k')); [done | apply IH].
Qed.

Lemma lookup_key_set_eq (pairs : list KeyFilePair) (k v : string) :
  lookup_key (set_key pairs k v) k = Some v.
Proof.
  unfold set_key. destruct (lookup_key pairs k) eqn:H.
  - apply lookup_key_replace_eq. eauto.
  - simpl. by rewrite decide_True.
Qed.

Lemma lookup_key_set_ne (pairs : list KeyFilePair) (k k' v : string) :
  k <> k' -> lookup_key (set_key pairs k v) k' = lookup_key pairs k'.
Proof.
  intros Hne. unfold set_key. destruct (lookup_key pairs k).
  - by apply lookup_key_replace_ne.
  - simpl. by rewrite decide_False.
Qed.

Lemma lookup_group_name (kf : KeyFile) (g : string) (grp : KeyFileGroup) :
  lookup_group kf g = Some grp -> group_name grp = Some g.
Proof.
  induction kf as [|grp' rest IH]; simpl; [done |].
  destruct (decide (group_name grp' = Some g)); [congruence | done].
Qed.

Lemma lookup_group_alter_eq f (kf : KeyFile) (g : string) (grp : KeyFileGroup) :
  lookup_group kf g = Some grp ->
  lookup_group (alter_group f kf g) g =
    Some {| group_name := group_name grp;
            key_value_pairs := f (key_value_pairs grp) |}.
Proof.
  induction kf as [|grp' rest IH]; simpl; [done |].
  destruct (decide (group_name grp' = Some g)) as [Heq|Hne]; simpl.
  - intros [= ->]. by rewrite decide_True.
  - intros H. rewrite decide_False by done. by apply IH.
Qed.

Lemma lookup_group_alter_ne f (kf : KeyFile) (g g' : string) :
  g <> g' -> lookup_group (alter_group f kf g) g' = lookup_group kf g'.
Proof.
  intros Hne. induction kf as [|grp rest IH]; simpl; [done |].
  destruct (decide (group_name grp = Some g)) as [Heq|Hne']; simpl.
  - rewrite !decide_False by congruence. done.
  - destruct (decide (group_name grp = Some g')); [done | apply IH].
Qed.

Lemma raw_value_set_eq (kf : KeyFile) (g k v : string) :
  raw_value (set_value kf g k v) g k = Some v.
Proof.
  unfold raw_value, set_value.
  destruct (lookup_group kf g) as [grp|] eqn:Hgrp.
  - erewrite lookup_group_alter_eq by done. simpl.
    apply lookup_key_set_eq.
  - simpl. rewrite decide_True by done. simpl. by rewrite decide_True.
Qed.

Lemma raw_value_set_ne (kf : KeyFile) (g k v g' k' : string) :
  g <> g' \/ k <> k' ->
  raw_value (set_value kf g k v) g' k' = raw_value kf g' k'.
Proof.
  intros Hne. unfold raw_value, set_value.
  destruct (lookup_group kf g) as [grp|] eqn:Hgrp.
  - destruct (decide (g = g')) as [<-|Hg].
    + erewrite lookup_group_alter_eq by done. rewrite Hgrp. simpl.
      apply lookup_key_set_ne. by destruct Hne.
    + by rewrite lookup_group_alter_ne.
  - simpl. destruct (decide (g = g')) as [<-|Hg].
    + rewrite decide_True by done. rewrite Hgrp. simpl.
      rewrite decide_False; [done | by destruct Hne].
    + by rewrite decide_False by congruence.
Qed.

(** Lines that a predicate keeps are not lost by [set_value], provided the
    predicate rejects the line that is set. *)
Section Lines.

Context (P : option string * KeyFilePair -> Prop) `{!forall ln, Decision (P ln)}.
Context (g k : string).
Hypothesis P_rejects : forall v, ~ P (Some g, KeyValue k v).

Lemma filter_replace_key (pairs : list KeyFilePair) (v : string) :
  filter P (map (pair (Some g)) (replace_key pairs k v)) =
  filter P (map (pair (Some g)) pairs).
Proof.
  induction pairs as [|[c|k' v'] rest IH]; simpl; [done | |].
  - rewrite !filter_cons. by rewrite IH.
  - destruct (decide (k' = k)) as [->|Hne]; simpl.
    + rewrite !filter_cons.
      rewrite !decide_False by apply P_rejects. done.
    + rewrite !filter_cons. by rewrite IH.
Qed.

Lemma filter_set_key (pairs : list KeyFilePair) (v : string) :
  filter P (map (pair (Some g)) (set_key pairs k v)) =
  filter P (map (pair (Some g)) pairs).
Proof.
  unfold set_key. destruct (lookup_key pairs k).
  - apply filter_replace_key.
  - simpl. rewrite filter_cons.
    by rewrite decide_False by apply P_rejects.
Qed.

Lemma filter_lines_alter (kf : KeyFile) (v : string) :
  filter P (lines_of (alter_group (fun pairs => set_key pairs k v) kf g)) =
  filter P (lines_of kf).
Proof.
  unfold lines_of.
  induction kf as [|grp rest IH]; simpl; [done |].
  destruct (decide (group_name grp = Some g)) as [Heq|Hne]; simpl.
  - rewrite !filter_app, Heq. by rewrite filter_set_key.
  - rewrite !filter_app. by rewrite IH.
Qed.

Lemma filter_lines_set_value (kf : KeyFile) (v : string) :
  filter P (lines_of (set_value kf g k v)) = filter P (lines_of kf).
Proof.
  unfold set_value. destruct (lookup_group kf g).
  - apply filter_lines_alter.
  - unfold lines_of. simpl. rewrite filter_cons.
    by rewrite decide_False by apply P_rejects.
Qed.

End Lines.

(** [set_value] keeps the groups in place; a new group comes first in the
    list, which is last in the file. *)
Lemma group_names_alter f (kf : KeyFile) (g : string) :
  map group_name (alter_group f kf g) = map group_name kf.
Proof.
  induction kf as [|grp rest IH]; simpl; [done |].
  destruct (decide (group_name grp = Some g)); simpl; [done | by rewrite IH].
Qed.

Lemma group_names_set_value (kf : KeyFile) (g k v : string) :
  map group_name kf `suffix_of` map group_name (set_value kf g k v).
Proof.
  unfold set_value. destruct (lookup_group kf g).
  - by rewrite group_names_alter.
  - simpl. by apply suffix_cons_r.
Qed.

End KeyFileFacts.

(** ** Loading the configuration *)

Section Configuration.

Context `{cfg : MediaConfig} `{os : Platform}.
Import KeyFileOps KeyFileFacts.

Lemma get_value_run (g k : string) (p : Process) :
  match raw_value (configFile p) g k with
  | Some v => get_value g k p = (Ret v, p)
  | None => exists code, get_value g k p = (Throw (KeyFileError code), p)
  end.
Proof.
  unfold raw_value, get_value. run_monad.
  destruct (lookup_group (configFile p) g) as [grp|]; simpl; [| eauto].
  destruct (lookup_key (key_value_pairs grp) k); simpl; eauto.
Qed.

Lemma get_string_run (g k : string) (p : Process) :
  match string_of_key (configFile p) g k with
  | Some s => get_string g k p = (Ret s, p)
  | None => exists code, get_string g k p = (Throw (KeyFileError code), p)
  end.
Proof.
  unfold string_of_key, get_string.
  pose proof (get_value_run g k p) as H.
  destruct (raw_value (configFile p) g k) as [v|]; simpl.
  - erewrite bind_Ret by done.
    destruct (g_key_file_parse_value_as_string v); run_monad; eauto.
  - destruct H as [code H]. exists code.
    unfold mbind, M_bind. by rewrite H.
Qed.

Lemma get_integer_run (g k : string) (p : Process) :
  match integer_of_key (configFile p) g k with
  | Some n => get_integer g k p = (Ret n, p)
  | None => exists code, get_integer g k p = (Throw (KeyFileError code), p)
  end.
Proof.
  unfold integer_of_key, get_integer.
  pose proof (get_value_run g k p) as H.
  destruct (raw_value (configFile p) g k) as [v|]; simpl.
  - erewrite bind_Ret by done.
    destruct (g_key_file_parse_value_as_integer v); run_monad; eauto.
  - destruct H as [code H]. exists code.
    unfold mbind, M_bind. by rewrite H.
Qed.

Lemma check_port_run (n : Z) (p : Process) :
  check_port n p =
    (if decide (valid_port n) then Ret tt else Throw (KeyFileError PARSE), p).
Proof.
  unfold check_port, valid_port, G_MAXUSHORT.
  destruct (decide (1 <= n <= 65535)) as [Hv|Hv].
  - replace (n <=? 0) with false by lia.
    replace (n >? 65535) with false by lia. done.
  - destruct (n <=? 0) eqn:H1; [done |].
    destruct (n >? 65535) eqn:H2; [done | lia].
Qed.

Lemma resolve_address_run (p : Process) :
  exists p1,
    resolve_address p = (Ret tt, p1) /\
    configFile p1 = with_address (configFile p) /\
    serverAddress p1 =
      default MEDIA_SERVER_ADDRESS (address_of_key (configFile p)) /\
    serverServicePort p1 = serverServicePort p /\
    files p1 = files p.
Proof.
  unfold resolve_address, try_catch_KeyFileError, with_address, address_of_key.
  pose proof (get_string_run SERVER_GROUP MEDIA_SERVER_ADDRESS_KEY p) as H.
  destruct (string_of_key _ _ _) as [a|].
  - erewrite bind_Ret by done. eexists. by split_and!.
  - destruct H as [code H]. unfold mbind at 1, M_bind at 1. rewrite H.
    eexists. by split_and!.
Qed.

Lemma resolve_port_run (p : Process) :
  exists p1,
    resolve_port p = (Ret tt, p1) /\
    configFile p1 = with_port (configFile p) /\
    serverServicePort p1 =
      default MEDIA_SERVER_SERVICE_PORT (port_of_key (configFile p)) /\
    serverAddress p1 = serverAddress p /\
    files p1 = files p.
Proof.
  unfold resolve_port, try_catch_KeyFileError, with_port, port_of_key.
  pose proof (get_integer_run SERVER_GROUP MEDIA_SERVER_SERVICE_PORT_KEY p)
    as H.
  destruct (integer_of_key _ _ _) as [n|]; simpl.
  - erewrite bind_Ret by done.
    unfold mbind at 1, M_bind at 1. rewrite check_port_run.
    destruct (decide (valid_port n)); eexists; by split_and!.
  - destruct H as [code H]. unfold mbind at 1, M_bind at 1. rewrite H.
    eexists. by split_and!.
Qed.

(** [load_sdp_pattern] case by case.  A key that names a file that
    cannot be opened ends in a fault; every other failure is reported by
    the result or by an exception. *)
Lemma load_sdp_pattern_run (p : Process) :
  let '(r, p') := load_sdp_pattern p in
  keeps p p' /\ sdpPattern p' = sdpPattern p /\
  if gst_sdp_message_new then
    match string_of_key (configFile p) SERVER_GROUP SDP_PATTERN_KEY with
    | None => exists code, r = Throw (KeyFileError code)
    | Some name =>
        match files p !! name with
        | None => r = Segv
        | Some text => r = Ret (gst_sdp_message_parse_buffer text)
        end
    end
  else r = Ret None.
Proof.
  unfold load_sdp_pattern.
  unfold mbind at 1, M_bind at 1, GST_DEBUG at 1, emit at 1, modify at 1.
  set (p1 := set_events _ p).
  destruct gst_sdp_message_new; simpl.
  - pose proof (get_string_run SERVER_GROUP SDP_PATTERN_KEY p1) as H.
    change (configFile p1) with (configFile p) in H.
    destruct (string_of_key _ _ _) as [name|].
    + erewrite bind_Ret by done. unfold read_entire_file. run_monad.
      destruct (files p !! name) as [text|]; simpl; [| by repeat split].
      destruct (gst_sdp_message_parse_buffer text); by repeat split.
    + destruct H as [code H]. unfold mbind, M_bind. rewrite H.
      split_and!; [by split | done | eauto].
  - run_monad. by repeat split.
Qed.

Lemma resolve_sdp_pattern_run (p : Process) :
  let '(r, p') := resolve_sdp_pattern p in
  keeps p p' /\
  ((r = Ret tt /\ ~ sdp_pattern_file_missing (configFile p) (files p)) \/
   (r = Segv /\ sdp_pattern_file_missing (configFile p) (files p))).
Proof.
  unfold resolve_sdp_pattern, try_catch_KeyFileError.
  unfold mbind at 1, M_bind at 1.
  pose proof (load_sdp_pattern_run p) as H.
  destruct (load_sdp_pattern p) as [r p1].
  destruct H as ([] & _ & H).
  unfold sdp_pattern_file_missing.
  destruct gst_sdp_message_new.
  - destruct (string_of_key _ _ _) as [name|].
    + destruct (files p !! name) as [text|] eqn:Hfile; subst r.
      * run_monad. split; [by split | left]. split; [done |].
        intros (_ & name' & [= <-] & Hnone). congruence.
      * split; [by split | right]. split; [done |]. eauto.
    + destruct H as [code ->]. run_monad.
      split; [by split | left]. split; [done |].
      by intros (_ & name' & [=] & _).
  - subst r. run_monad. split; [by split | left]. split; [done |].
    by intros [[=] _].
Qed.

Lemma save_config_run (file_name : string) (p : Process) :
  exists p',
    save_config file_name p = (Ret tt, p') /\
    files p' = <[file_name := g_key_file_to_data (configFile p)]> (files p) /\
    configFile p' = configFile p /\
    serverAddress p' = serverAddress p /\
    serverServicePort p' = serverServicePort p.
Proof. unfold save_config, to_data, ofstream. run_monad. eauto 10. Qed.

(** The part of [load_config] after a successful load: the keys are
    resolved one after the other, and the file is written unless the SDP
    pattern file could not be opened. *)
Lemma resolve_keys_run (file_name : string) (p : Process) :
  exists r p',
    resolve_keys file_name p = (r, p') /\
    configFile p' = with_port (with_address (configFile p)) /\
    serverAddress p' =
      default MEDIA_SERVER_ADDRESS (address_of_key (configFile p)) /\
    serverServicePort p' =
      default MEDIA_SERVER_SERVICE_PORT
        (port_of_key (with_address (configFile p))) /\
    ((r = Ret tt /\
      ~ sdp_pattern_file_missing (configFile p') (files p) /\
      files p' = <[file_name := g_key_file_to_data (configFile p')]> (files p))
     \/ (r = Segv /\
         sdp_pattern_file_missing (configFile p') (files p) /\
         files p' = files p)).
Proof.
  unfold resolve_keys.
  destruct (resolve_address_run p) as (p1 & Hrun1 & Hkf1 & Ha1 & Hp1 & Hf1).
  erewrite bind_Ret by exact Hrun1.
  destruct (resolve_port_run p1) as (p2 & Hrun2 & Hkf2 & Hp2 & Ha2 & Hf2).
  erewrite bind_Ret by exact Hrun2.
  pose proof (resolve_sdp_pattern_run p2) as H3.
  destruct (resolve_sdp_pattern p2) as [r3 p3] eqn:Hrun3.
  assert (Hkf : configFile p2 = with_port (with_address (configFile p)))
    by congruence.
  assert (Hf : files p2 = files p) by congruence.
  rewrite Hkf, Hf in H3.
  destruct H3 as [[Ha3 Hp3 Hkf3 Hf3] [[-> Hsdp] | [-> Hsdp]]].
  - erewrite bind_Ret by exact Hrun3.
    destruct (save_config_run file_name p3)
      as (p4 & Hrun4 & Hf4 & Hkf4 & Ha4 & Hp4).
    assert (Hkf' : configFile p4 = with_port (with_address (configFile p)))
      by congruence.
    exists (Ret tt), p4. split_and!; [done | congruence .. |].
    left. rewrite Hkf'. split_and!; [done | done | congruence].
  - erewrite bind_Segv by exact Hrun3.
    assert (Hkf' : configFile p3 = with_port (with_address (configFile p)))
      by congruence.
    exists Segv, p3. split_and!; [done | congruence .. |].
    right. rewrite Hkf'. split_and!; [done | done | congruence].
Qed.

Lemma load_config_parts (file_name : string) :
  load_config file_name =
    (GST_INFO ("Reading configuration from: " +:+ file_name) ;;
     file ← ifstream file_name;
     (if negb file then
        GST_INFO "Config file not found, creating a new one" ;;
        ofstream file_name ""
      else mret tt) ;;
     loaded ← open_config file_name;
     if negb loaded then mret tt else resolve_keys file_name).
Proof. reflexivity. Qed.

Lemma open_config_run (file_name data : string) (p : Process) :
  files p !! file_name = Some data ->
  match g_key_file_load_from_data data with
  | Loaded kf =>
      exists p0,
        open_config file_name p = (Ret true, p0) /\
        configFile p0 = kf /\ files p0 = files p
  | _ =>
      exists p',
        open_config file_name p = (Ret false, p') /\
        files p' = files p /\
        serverAddress p' = MEDIA_SERVER_ADDRESS /\
        serverServicePort p' = MEDIA_SERVER_SERVICE_PORT
  end.
Proof.
  intros Hfile.
  unfold open_config, try_catch_Glib_Error, load_from_file,
    set_default_server_config.
  run_monad. rewrite Hfile.
  destruct (g_key_file_load_from_data data); run_monad; eauto 10.
Qed.

Lemma load_config_prologue (file_name : string) (p : Process) :
  exists p1,
    load_config file_name p =
      (loaded ← open_config file_name;
       if negb loaded then mret tt else resolve_keys file_name) p1 /\
    files p1 = with_config_file file_name (files p) /\
    files p1 !! file_name = Some (default "" (files p !! file_name)).
Proof.
  rewrite load_config_parts. unfold with_config_file.
  unfold mbind at 1 2 3, M_bind at 1 2 3.
  unfold GST_INFO at 1, emit at 1, modify at 1, ifstream at 1, gets at 1.
  cbn [events set_events files].
  destruct (files p !! file_name) as [data|] eqn:Hfile.
  - rewrite bool_decide_true by eauto. cbn [negb mret M_ret].
    eexists. split; [reflexivity |]. by split.
  - rewrite bool_decide_false by (intros [? ?]; done). cbn [negb].
    unfold mbind at 1, M_bind at 1, GST_INFO at 1, emit at 1, modify at 1,
      ofstream at 1.
    cbn [events set_events files set_files].
    eexists. split; [reflexivity |]. split; [done |].
    apply lookup_insert_eq.
Qed.

Lemma load_config_run (file_name : string) (p : Process) :
  match g_key_file_load_from_data (default "" (files p !! file_name)) with
  | Loaded kf =>
      exists p0,
        load_config file_name p = resolve_keys file_name p0 /\
        configFile p0 = kf /\
        files p0 = with_config_file file_name (files p)
  | _ =>
      exists p',
        load_config file_name p = (Ret tt, p') /\
        files p' = with_config_file file_name (files p) /\
        serverAddress p' = MEDIA_SERVER_ADDRESS /\
        serverServicePort p' = MEDIA_SERVER_SERVICE_PORT
  end.
Proof.
  destruct (load_config_prologue file_name p) as (p1 & -> & Hfs & Hfile).
  pose proof (open_config_run file_name _ p1 Hfile) as H.
  destruct (g_key_file_load_from_data _) as [kf| |code].
  - destruct H as (p0 & Hrun & Hkf & Hf).
    erewrite bind_Ret by exact Hrun. exists p0.
    split_and!; [done | congruence ..].
  - destruct H as (p' & Hrun & Hf & Ha & Hp).
    erewrite bind_Ret by exact Hrun. exists p'.
    split_and!; [done | congruence ..].
  - destruct H as (p' & Hrun & Hf & Ha & Hp).
    erewrite bind_Ret by exact Hrun. exists p'.
    split_and!; [done | congruence ..].
Qed.

End Configuration.

(** ** What [load_config] guarantees *)

Section ConfigurationClaims.

Context `{cfg : MediaConfig} `{os : Platform}.
Import KeyFileOps KeyFileFacts.

Lemma port_of_key_valid (kf : KeyFile) (n : Z) :
  port_of_key kf = Some n -> valid_port n.
Proof.
  unfold port_of_key.
  destruct (integer_of_key _ _ _) as [m|]; simpl; [| done].
  destruct (decide (valid_port m)); [congruence | done].
Qed.

Lemma raw_value_with_address (kf : KeyFile) (k : string) :
  k <> MEDIA_SERVER_ADDRESS_KEY ->
  raw_value (with_address kf) SERVER_GROUP k = raw_value kf SERVER_GROUP k.
Proof.
  intros Hne. unfold with_address. destruct (address_of_key kf); [done |].
  apply raw_value_set_ne. auto.
Qed.

Lemma raw_value_with_port (kf : KeyFile) (k : string) :
  k <> MEDIA_SERVER_SERVICE_PORT_KEY ->
  raw_value (with_port kf) SERVER_GROUP k = raw_value kf SERVER_GROUP k.
Proof.
  intros Hne. unfold with_port. destruct (port_of_key kf); [done |].
  apply raw_value_set_ne. auto.
Qed.

Lemma port_of_key_with_address (kf : KeyFile) :
  MEDIA_SERVER_ADDRESS_KEY <> MEDIA_SERVER_SERVICE_PORT_KEY ->
  port_of_key (with_address kf) = port_of_key kf.
Proof.
  intros Hne. unfold port_of_key, integer_of_key.
  by rewrite raw_value_with_address.
Qed.

(** C3, where the code departs from it: when the SDP pattern key names a
    file that cannot be opened, [load_sdp_pattern] does not return an
    error, it dereferences the null stream; a file that opens but does
    not parse gives the recoverable null result. *)
Theorem load_sdp_pattern_open_failure_faults (p : Process) (name : string) :
  gst_sdp_message_new = true ->
  string_of_key (configFile p) SERVER_GROUP SDP_PATTERN_KEY = Some name ->
  (files p !! name = None -> (load_sdp_pattern p).1 = Segv) /\
  (forall text,
      files p !! name = Some text ->
      gst_sdp_message_parse_buffer text = None ->
      (load_sdp_pattern p).1 = Ret None).
Proof.
  intros Hnew Hname.
  pose proof (load_sdp_pattern_run p) as H.
  destruct (load_sdp_pattern p) as [r p'].
  rewrite Hnew, Hname in H. destruct H as (_ & _ & H).
  split.
  - intros Hnone. by rewrite Hnone in H.
  - intros text Hfile Hparse. rewrite Hfile, Hparse in H. done.
Qed.

(** C4: after a load that parsed the file, the port is the value of the
    port key when that is an integer from 1 to 65535, and otherwise the
    compiled default, which is then stored under the key; the address is
    resolved from the address key alone in the same way, and the SDP
    pattern key is kept as it is.  When [load_config] returns, the file
    holds the key file with these substitutions. *)
Theorem load_config_resolves_each_key
    (file_name : string) (p p' : Process) (kf : KeyFile) (r : Result unit) :
  MEDIA_SERVER_ADDRESS_KEY <> MEDIA_SERVER_SERVICE_PORT_KEY ->
  SDP_PATTERN_KEY <> MEDIA_SERVER_ADDRESS_KEY ->
  SDP_PATTERN_KEY <> MEDIA_SERVER_SERVICE_PORT_KEY ->
  g_key_file_load_from_data (default "" (files p !! file_name)) = Loaded kf ->
  load_config file_name p = (r, p') ->
  match port_of_key kf with
  | Some n =>
      valid_port n /\ serverServicePort p' = n /\
      raw_value (configFile p') SERVER_GROUP MEDIA_SERVER_SERVICE_PORT_KEY =
        raw_value kf SERVER_GROUP MEDIA_SERVER_SERVICE_PORT_KEY
  | None =>
      serverServicePort p' = MEDIA_SERVER_SERVICE_PORT /\
      raw_value (configFile p') SERVER_GROUP MEDIA_SERVER_SERVICE_PORT_KEY =
        Some (pretty MEDIA_SERVER_SERVICE_PORT)
  end /\
  match address_of_key kf with
  | Some a =>
      serverAddress p' = a /\
      raw_value (configFile p') SERVER_GROUP MEDIA_SERVER_ADDRESS_KEY =
        raw_value kf SERVER_GROUP MEDIA_SERVER_ADDRESS_KEY
  | None =>
      serverAddress p' = MEDIA_SERVER_ADDRESS /\
      raw_value (configFile p') SERVER_GROUP MEDIA_SERVER_ADDRESS_KEY =
        Some (g_key_file_parse_string_as_value MEDIA_SERVER_ADDRESS)
  end /\
  raw_value (configFile p') SERVER_GROUP SDP_PATTERN_KEY =
    raw_value kf SERVER_GROUP SDP_PATTERN_KEY /\
  (r = Ret tt ->
   files p' !! file_name = Some (g_key_file_to_data (configFile p'))).
Proof.
  intros Hap Hsa Hsp Hload Hrun.
  pose proof (load_config_run file_name p) as H. rewrite Hload in H.
  destruct H as (p0 & Heq & Hkf0 & Hf0). rewrite Heq in Hrun.
  destruct (resolve_keys_run file_name p0)
    as (r' & p'' & Hrun' & Hkf & Ha & Hp & Hfiles).
  rewrite Hrun' in Hrun. injection Hrun as <- <-.
  rewrite Hkf0 in Hkf, Ha, Hp.
  rewrite port_of_key_with_address in Hp by done.
  rewrite Hkf. split_and!.
  - destruct (port_of_key kf) as [n|] eqn:Hport.
    + split_and!; [by eapply port_of_key_valid | done |].
      unfold with_port. rewrite port_of_key_with_address, Hport by done.
      by apply raw_value_with_address.
    + split; [done |]. unfold with_port.
      rewrite port_of_key_with_address, Hport by done.
      apply raw_value_set_eq.
  - rewrite raw_value_with_port by done.
    unfold with_address. destruct (address_of_key kf) as [a|].
    + by split.
    + split; [done | apply raw_value_set_eq].
  - rewrite raw_value_with_port, raw_value_with_address by done. done.
  - intros ->. destruct Hfiles as [(_ & _ & Hf) | ([=] & _)].
    rewrite Hf, Hkf. apply lookup_insert_eq.
Qed.

(** C5: on every path through [load_config], also when the file is
    missing or does not parse, the port it leaves is in the range from 1
    to 65535, given that the compiled default is. *)
Theorem load_config_port_in_range (file_name : string) (p : Process) :
  valid_port MEDIA_SERVER_SERVICE_PORT ->
  valid_port (serverServicePort (load_config file_name p).2).
Proof.
  intros Hdefault.
  pose proof (load_config_run file_name p) as H.
  destruct (g_key_file_load_from_data _) as [kf| |code].
  - destruct H as (p0 & -> & Hkf0 & Hf0).
    destruct (resolve_keys_run file_name p0)
      as (r' & p'' & -> & _ & _ & Hp & _).
    simpl. rewrite Hp.
    destruct (port_of_key _) as [n|] eqn:Hport; simpl; [| done].
    by eapply port_of_key_valid.
  - destruct H as (p' & -> & _ & _ & Hp). simpl. by rewrite Hp.
  - destruct H as (p' & -> & _ & _ & Hp). simpl. by rewrite Hp.
Qed.

Lemma untouched_rejects_address (v : string) :
  ~ untouched (Some SERVER_GROUP, KeyValue MEDIA_SERVER_ADDRESS_KEY v).
Proof. simpl. intros H. apply H. auto. Qed.

Lemma untouched_rejects_port (v : string) :
  ~ untouched (Some SERVER_GROUP, KeyValue MEDIA_SERVER_SERVICE_PORT_KEY v).
Proof. simpl. intros H. apply H. auto. Qed.

Lemma with_address_keeps_lines (kf : KeyFile) :
  filter untouched (lines_of (with_address kf)) =
    filter untouched (lines_of kf) /\
  map group_name kf `suffix_of` map group_name (with_address kf).
Proof.
  unfold with_address. destruct (address_of_key kf); [done |]. split.
  - apply filter_lines_set_value, untouched_rejects_address.
  - apply group_names_set_value.
Qed.

Lemma with_port_keeps_lines (kf : KeyFile) :
  filter untouched (lines_of (with_port kf)) =
    filter untouched (lines_of kf) /\
  map group_name kf `suffix_of` map group_name (with_port kf).
Proof.
  unfold with_port. destruct (port_of_key kf); [done |]. split.
  - apply filter_lines_set_value, untouched_rejects_port.
  - apply group_names_set_value.
Qed.

(** C9: when [load_config] has parsed a file and writes it back, the
    written key file has every comment, every key of another group and
    every other key of the server group of the input, with the values and
    in the order of the input, and the groups of the input in place,
    whether or not defaults were substituted.  When it does not come to
    write, the file is as it was. *)
Theorem load_config_keeps_unrecognized_lines
    (file_name : string) (p p' : Process) (kf : KeyFile) (r : Result unit) :
  g_key_file_load_from_data (default "" (files p !! file_name)) = Loaded kf ->
  load_config file_name p = (r, p') ->
  (r = Ret tt /\
   exists kf',
     files p' !! file_name = Some (g_key_file_to_data kf') /\
     filter untouched (lines_of kf') = filter untouched (lines_of kf) /\
     map group_name kf `suffix_of` map group_name kf') \/
  (r = Segv /\
   files p' !! file_name = Some (default "" (files p !! file_name))).
Proof.
  intros Hload Hrun.
  pose proof (load_config_run file_name p) as H. rewrite Hload in H.
  destruct H as (p0 & Heq & Hkf0 & Hf0). rewrite Heq in Hrun.
  destruct (resolve_keys_run file_name p0)
    as (r' & p'' & Hrun' & Hkf & _ & _ & Hfiles).
  rewrite Hrun' in Hrun. injection Hrun as -> ->.
  rewrite Hkf0 in Hkf.
  destruct Hfiles as [(-> & _ & Hf) | (-> & _ & Hf)].
  - left. split; [done |]. exists (configFile p'). split_and!.
    + rewrite Hf. apply lookup_insert_eq.
    + rewrite Hkf.
      destruct (with_port_keeps_lines (with_address kf)) as [-> _].
      by destruct (with_address_keeps_lines kf) as [-> _].
    + rewrite Hkf.
      destruct (with_port_keeps_lines (with_address kf)) as [_ H2].
      destruct (with_address_keeps_lines kf) as [_ H1].
      by etrans.
  - right. split; [done |]. rewrite Hf, Hf0. unfold with_config_file.
    destruct (files p !! file_name) eqn:Hfile; [done |].
    apply lookup_insert_eq.
Qed.

(** A file that is there but does not parse: [load_config] returns with
    the compiled defaults and the file system is as before. *)
Lemma load_config_parse_failure (file_name data : string) (p : Process) :
  files p !! file_name = Some data ->
  (forall kf, g_key_file_load_from_data data <> Loaded kf) ->
  exists p',
    load_config file_name p = (Ret tt, p') /\
    files p' = files p /\
    serverAddress p' = MEDIA_SERVER_ADDRESS /\
    serverServicePort p' = MEDIA_SERVER_SERVICE_PORT.
Proof.
  intros Hfile Hfail.
  pose proof (load_config_run file_name p) as H.
  unfold with_config_file in H. rewrite Hfile in H. simpl in H.
  destruct (g_key_file_load_from_data data) as [kf| |code]; [| done ..].
  by destruct (Hfail kf).
Qed.

(** C10, where the code departs from it: a file that parses is not
    always written back.  When the SDP pattern key of the loaded file
    names a file that cannot be opened, [load_config] ends in the fault of
    [read_entire_file] and the configuration file is as it was, although
    defaults may have been substituted in memory. *)
Theorem load_config_fault_skips_rewrite
    (file_name data name : string) (p : Process) (kf : KeyFile) :
  SDP_PATTERN_KEY <> MEDIA_SERVER_ADDRESS_KEY ->
  SDP_PATTERN_KEY <> MEDIA_SERVER_SERVICE_PORT_KEY ->
  files p !! file_name = Some data ->
  g_key_file_load_from_data data = Loaded kf ->
  gst_sdp_message_new = true ->
  string_of_key kf SERVER_GROUP SDP_PATTERN_KEY = Some name ->
  files p !! name = None ->
  exists p',
    load_config file_name p = (Segv, p') /\
    files p' = files p /\
    configFile p' = with_port (with_address kf).
Proof.
  intros Hsa Hsp Hfile Hload Hnew Hname Hnone.
  pose proof (load_config_run file_name p) as H.
  unfold with_config_file in H. rewrite Hfile in H. simpl in H.
  rewrite Hload in H. destruct H as (p0 & -> & Hkf0 & Hf0).
  destruct (resolve_keys_run file_name p0)
    as (r' & p' & Hrun' & Hkf & _ & _ & Hfiles).
  rewrite Hkf0 in Hkf. rewrite Hf0 in Hfiles.
  destruct Hfiles as [(_ & Hnot & _) | (-> & _ & Hf)].
  - exfalso. apply Hnot. split; [done |]. exists name. split; [| done].
    rewrite Hkf. unfold string_of_key.
    rewrite raw_value_with_port, raw_value_with_address by done. done.
  - exists p'. by split_and!.
Qed.

(** C2, where the code departs from it: a configuration file with a
    valid port [n] other than the compiled default leaves [n] in
    [serverServicePort], but the service thread builds its server with
    the compiled default and binds, or fails to bind, that port. *)
Theorem service_ignores_configured_port
    (file_name : string) (p p' : Process) (kf : KeyFile) (n : Z)
    (r : Result unit) :
  MEDIA_SERVER_ADDRESS_KEY <> MEDIA_SERVER_SERVICE_PORT_KEY ->
  g_key_file_load_from_data (default "" (files p !! file_name)) = Loaded kf ->
  port_of_key kf = Some n ->
  n <> MEDIA_SERVER_SERVICE_PORT ->
  load_config file_name p = (r, p') ->
  serverServicePort p' = n /\
  p_server (create_media_server_service p').2 =
    Some MEDIA_SERVER_SERVICE_PORT /\
  exists trace,
    events (create_media_server_service p').2 = events p' ++ trace /\
    (Bound n ∉ trace) /\ (BindFailed n ∉ trace) /\
    (Bound MEDIA_SERVER_SERVICE_PORT ∈ trace \/
     BindFailed MEDIA_SERVER_SERVICE_PORT ∈ trace).
Proof.
  intros Hap Hload Hport Hne Hrun.
  pose proof (load_config_run file_name p) as H. rewrite Hload in H.
  destruct H as (p0 & Heq & Hkf0 & Hf0). rewrite Heq in Hrun.
  destruct (resolve_keys_run file_name p0)
    as (r' & p'' & Hrun' & _ & _ & Hp & _).
  rewrite Hrun' in Hrun. injection Hrun as -> ->.
  rewrite Hkf0, port_of_key_with_address, Hport in Hp by done.
  split; [done |]. split; [apply service_port_is_compiled_default |].
  destruct (service_binds_compiled_default p') as (trace & Hev & Hall & Hsome).
  exists trace. split_and!; [done | | | done].
  - intros Hin. apply Hne, Hall. by left.
  - intros Hin. apply Hne, Hall. by right.
Qed.

(** [load_config] returns or faults; it does not exit, throw or wait. *)
Lemma load_config_result (file_name : string) (p : Process) :
  (load_config file_name p).1 = Ret tt \/ (load_config file_name p).1 = Segv.
Proof.
  pose proof (load_config_run file_name p) as H.
  destruct (g_key_file_load_from_data _) as [kf| |code].
  - destruct H as (p0 & -> & _).
    destruct (resolve_keys_run file_name p0)
      as (r & p' & -> & _ & _ & _ & [(-> & _) | (-> & _)]); auto.
  - destruct H as (p' & -> & _). by left.
  - destruct H as (p' & -> & _). by left.
Qed.

(** When [main] has come to wait inside [loop->run ()], the loop is
    running and nothing is attached to it: the process enters its running
    phase with the loop idle. *)
Lemma main_waits_idle (cl : CommandLine) (p p' : Process) :
  main cl p = (Blocked, p') ->
  loop_is_running p' = true /\ loop_sources p' = [].
Proof.
  destruct cl as [message|conf_file]; [discriminate |].
  unfold main.
  set (load := match conf_file with
               | Some name => load_config name
               | None => load_config DEFAULT_CONFIG_FILE
               end).
  assert (Hload : forall q, (load q).1 = Ret tt \/ (load q).1 = Segv).
  { intros q. subst load. destruct conf_file; apply load_config_result. }
  do 5 (erewrite bind_Ret by reflexivity).
  unfold mbind at 1, M_bind at 1.
  match goal with |- context [load ?q] => set (p1 := q) end.
  specialize (Hload p1).
  destruct (load p1) as [r p2]. simpl in Hload.
  destruct Hload as [-> | ->]; [| discriminate].
  erewrite bind_Ret by reflexivity.
  unfold loop_run, g_main_context_iteration. run_monad.
  rewrite dispatch_all.
  destruct (loop_sources p2) as [|source rest]; simpl; [| discriminate].
  by intros [= <-].
Qed.

Lemma boot_idle (cl : CommandLine) (fs : gmap string string)
    (stack : list Frame) :
  status (boot cl fs stack) = Running -> loop_idle (boot cl fs stack).
Proof.
  unfold boot, loop_idle.
  destruct (main cl (initial_process fs)) as [[code|e|code| |] p] eqn:Hmain;
    simpl; try discriminate.
  - destruct (bt_sighandler SIGSEGV 0 stack p) as [[] p']; simpl;
      discriminate.
  - intros _. by apply main_waits_idle in Hmain.
Qed.

End ConfigurationClaims.

(** * Further properties *)

(** ** What a computation leaves alone *)

Section Frames.

Context {X : Type} (f : Process -> X).

Lemma preserves_ret {A} (a : A) : preserves f (mret a).
Proof. by intros p. Qed.

Lemma preserves_bind {A B} (m : M A) (k : A -> M B) :
  preserves f m -> (forall a, preserves f (k a)) -> preserves f (m ≫= k).
Proof.
  intros Hm Hk p. unfold mbind, M_bind.
  specialize (Hm p). destruct (m p) as [[a|e|code| |] p1]; simpl in *;
    try done.
  by rewrite Hk.
Qed.

Lemma preserves_gets {A} (g : Process -> A) : preserves f (gets g).
Proof. by intros p. Qed.

Lemma preserves_throw {A} (e : Exception) : preserves f (throw (A := A) e).
Proof. by intros p. Qed.

Lemma preserves_exit {A} (code : Z) : preserves f (exit (A := A) code).
Proof. by intros p. Qed.

Lemma preserves_segfault {A} : preserves f (segfault (A := A)).
Proof. by intros p. Qed.

Lemma preserves_block {A} : preserves f (block (A := A)).
Proof. by intros p. Qed.

Lemma preserves_modify (g : Process -> Process) :
  (forall p, f (g p) = f p) -> preserves f (modify g).
Proof. intros Hg p. apply Hg. Qed.

Lemma preserves_try_catch_KeyFileError {A} (body : M A)
    (handler : Exception -> M A) :
  preserves f body -> (forall e, preserves f (handler e)) ->
  preserves f (try_catch_KeyFileError body handler).
Proof.
  intros Hb Hh p. unfold try_catch_KeyFileError.
  specialize (Hb p). destruct (body p) as [[a|[code| | |]|code| |] p1];
    simpl in *; try done.
  by rewrite Hh.
Qed.

Lemma preserves_try_catch_Glib_Error {A} (body : M A)
    (handler : Exception -> M A) :
  preserves f body -> (forall e, preserves f (handler e)) ->
  preserves f (try_catch_Glib_Error body handler).
Proof.
  intros Hb Hh p. unfold try_catch_Glib_Error.
  specialize (Hb p). destruct (body p) as [[a|e|code| |] p1];
    simpl in *; try done.
  destruct (is_Glib_Error e); [by rewrite Hh | done].
Qed.

End Frames.

(** Walks through a computation built from the operations of the monad. *)
Ltac preserve :=
  repeat first
    [ apply preserves_ret
    | apply preserves_gets
    | apply preserves_throw
    | apply preserves_exit
    | apply preserves_segfault
    | apply preserves_block
    | apply preserves_modify; intros ?; first [reflexivity | done]
    | apply preserves_bind; [| intros ?]
    | apply preserves_try_catch_KeyFileError; [| intros ?]
    | apply preserves_try_catch_Glib_Error; [| intros ?]
    | match goal with
      | |- preserves _ (match ?x with _ => _ end) => destruct x
      end
    | progress unfold GST_DEBUG, GST_INFO, GST_WARNING, GST_ERROR, emit,
        get_string, get_integer, get_value, set_string, set_integer,
        load_from_file, to_data, ifstream, ofstream, check_port,
        set_default_server_config, read_entire_file, load_sdp_pattern,
        serve, initialiseExecutableName, getExecutableName, quit_loop ].

Section FramesOfProgram.

Context `{cfg : MediaConfig} `{os : Platform}.

Lemma load_config_preserves (file_name : string) {X} (f : Process -> X) :
  (forall v q, f (set_events v q) = f q) ->
  (forall v q, f (set_files v q) = f q) ->
  (forall v q, f (set_configFile v q) = f q) ->
  (forall v q, f (set_serverAddress v q) = f q) ->
  (forall v q, f (set_serverServicePort v q) = f q) ->
  (forall v q, f (set_sdpPattern v q) = f q) ->
  preserves f (load_config file_name).
Proof. intros ? ? ? ? ? ?. unfold load_config. preserve. Qed.

(** X1: [load_config] works on the configuration alone: the main loop and
    its sources, the server object and the cached name of the executable
    are after it what they were before, however it ends. *)
Theorem load_config_leaves_loop_and_service (file_name : string) (p : Process) :
  let p' := (load_config file_name p).2 in
  loop_is_running p' = loop_is_running p /\
  loop_sources p' = loop_sources p /\
  p_server p' = p_server p /\
  exe p' = exe p.
Proof.
  split_and!; by apply (load_config_preserves file_name).
Qed.

(** X2: the service thread never returns from
    [create_media_server_service] in the normal way: it ends by
    [Glib::Thread::Exit], by the exception of a failed bind, or it stays in
    [serve].  It sets [p_server] and leaves the configuration, the files,
    the main loop and its sources as they were. *)
Theorem create_media_server_service_never_returns (p : Process) :
  let '(r, p') := create_media_server_service p in
  (r = Throw ThreadExit \/ r = Throw TException \/ r = Blocked) /\
  p_server p' = Some MEDIA_SERVER_SERVICE_PORT /\
  serverAddress p' = serverAddress p /\
  serverServicePort p' = serverServicePort p /\
  sdpPattern p' = sdpPattern p /\
  configFile p' = configFile p /\
  files p' = files p /\
  loop_is_running p' = loop_is_running p /\
  loop_sources p' = loop_sources p.
Proof.
  unfold create_media_server_service, serve.
  destruct serve_behaviour; run_monad; auto 15.
Qed.

Lemma print_frames_preserves {X} (f : Process -> X) :
  (forall v q, f (set_events v q) = f q) ->
  (forall v q, f (set_exe v q) = f q) ->
  forall frames i, preserves f (print_frames i frames).
Proof.
  intros Hev Hexe. induction frames as [|fr rest IH]; intros i.
  - apply preserves_ret.
  - cbn [print_frames]. preserve. apply IH.
Qed.

Lemma bt_sighandler_preserves {X} (f : Process -> X) :
  (forall v q, f (set_events v q) = f q) ->
  (forall v q, f (set_exe v q) = f q) ->
  (forall v q, f (set_loop_sources v q) = f q) ->
  forall sig si_addr stack, preserves f (bt_sighandler sig si_addr stack).
Proof.
  intros Hev Hexe Hsrc sig si_addr stack. unfold bt_sighandler.
  preserve; by apply print_frames_preserves.
Qed.

(** X3: whatever the signal, the handler leaves the configuration, the
    files, the server object and the run state of the loop as they were;
    to the sources of the loop it adds one [quit_loop] for SIGINT and
    SIGKILL and nothing otherwise. *)
Theorem bt_sighandler_leaves_configuration
    (sig si_addr : Z) (stack : list Frame) (p : Process) :
  let p' := (bt_sighandler sig si_addr stack p).2 in
  serverAddress p' = serverAddress p /\
  serverServicePort p' = serverServicePort p /\
  sdpPattern p' = sdpPattern p /\
  configFile p' = configFile p /\
  files p' = files p /\
  p_server p' = p_server p /\
  loop_is_running p' = loop_is_running p /\
  loop_sources p' =
    if (sig =? SIGKILL) || (sig =? SIGINT)
    then loop_sources p ++ [QuitLoop] else loop_sources p.
Proof.
  split_and!; try by apply bt_sighandler_preserves.
  destruct (sig =? SIGSEGV) eqn:Hsegv;
    destruct ((sig =? SIGKILL) || (sig =? SIGINT)) eqn:Hint.
  - apply Z.eqb_eq in Hsegv. subst sig. discriminate Hint.
  - assert (Hp : preserves loop_sources (bt_sighandler sig si_addr stack)).
    { unfold bt_sighandler. rewrite Hsegv.
      preserve; by apply print_frames_preserves. }
    apply Hp.
  - unfold bt_sighandler. rewrite Hsegv, Hint. reflexivity.
  - assert (Hp : preserves loop_sources (bt_sighandler sig si_addr stack)).
    { unfold bt_sighandler. rewrite Hsegv, Hint.
      preserve; by apply print_frames_preserves. }
    apply Hp.
Qed.

End FramesOfProgram.

(** ** The output of the signal handler *)

Section SignalOutput.

Context `{cfg : MediaConfig} `{os : Platform}.


(** X4: [getExecutableName] reads the link once.  After a call that
    returned a name, every later call returns that name and changes
    nothing, also when the link can no longer be read. *)
Theorem getExecutableName_cached (p p' : Process) (name : string)
    (later : Platform) :
  getExecutableName (os := os) p = (Ret name, p') ->
  getExecutableName (os := later) p' = (Ret name, p').
Proof.
  unfold getExecutableName, initialiseExecutableName. run_monad.
  destruct (exe p) as [cached|] eqn:Hexe.
  - intros [= -> ->]. by rewrite Hexe.
  - destruct readlink_proc_exe as [found|]; run_monad; [| done].
    by intros [= -> <-].
Qed.



Lemma shell_commands_app (a b : list Event) :
  shell_commands (a ++ b) = shell_commands a ++ shell_commands b.
Proof. apply omap_app. Qed.

Lemma runs_at_most_state {A} (r : Result A) :
  runs_at_most 0 (fun p => (r, p)).
Proof. intros p. exists []. simpl. split; [by rewrite app_nil_r | lia]. Qed.

Lemma runs_at_most_gets {A} (g : Process -> A) : runs_at_most 0 (gets g).
Proof. intros p. exists []. simpl. split; [by rewrite app_nil_r | lia]. Qed.

Lemma runs_at_most_modify (g : Process -> Process) :
  (forall p, events (g p) = events p) -> runs_at_most 0 (modify g).
Proof.
  intros Hg p. exists []. simpl. split; [by rewrite Hg, app_nil_r | lia].
Qed.

Lemma runs_at_most_emit (ev : Event) :
  runs_at_most (length (shell_commands [ev])) (emit ev).
Proof. intros p. by exists [ev]. Qed.

Lemma runs_at_most_le {A} (n n' : nat) (m : M A) :
  (n <= n')%nat -> runs_at_most n m -> runs_at_most n' m.
Proof.
  intros Hle Hm p. destruct (Hm p) as (out & Hev & Hlen).
  exists out. split; [done | lia].
Qed.

Lemma runs_at_most_bind {A B} (n k : nat) (m : M A) (f : A -> M B) :
  runs_at_most n m -> (forall a, runs_at_most k (f a)) ->
  runs_at_most (n + k) (m ≫= f).
Proof.
  intros Hm Hf p. unfold mbind, M_bind.
  destruct (Hm p) as (out1 & Hev1 & Hlen1).
  destruct (m p) as [[a|e|code| |] p1]; simpl in Hev1;
    try (exists out1; split; [done | lia]).
  destruct (Hf a p1) as (out2 & Hev2 & Hlen2).
  exists (out1 ++ out2). split.
  - by rewrite Hev2, Hev1, app_assoc.
  - rewrite shell_commands_app, length_app. lia.
Qed.

Lemma getExecutableName_no_command : runs_at_most 0 getExecutableName.
Proof.
  unfold getExecutableName, initialiseExecutableName.
  apply (runs_at_most_bind 0 0); [apply runs_at_most_gets |].
  intros [name|]; [apply (runs_at_most_state (Ret name)) |].
  apply (runs_at_most_bind 0 0).
  - destruct readlink_proc_exe as [name|].
    + apply (runs_at_most_state (Ret name)).
    + apply (runs_at_most_bind 0 0); [apply (runs_at_most_emit (Stderr _)) |].
      intros _. apply (runs_at_most_state (Exit 1)).
  - intros aux. apply (runs_at_most_bind 0 0).
    + by apply runs_at_most_modify.
    + intros _. apply (runs_at_most_state (Ret aux)).
Qed.

Lemma print_frames_commands (frames : list Frame) :
  forall i : Z, runs_at_most (length frames) (print_frames i frames).
Proof.
  induction frames as [|fr rest IH]; intros i.
  - apply (runs_at_most_state (Ret tt)).
  - cbn [print_frames length].
    apply (runs_at_most_bind 0 (S (length rest)));
      [apply (runs_at_most_emit (Stdout _)) | intros _].
    apply (runs_at_most_bind 0 (S (length rest))).
    + destruct (before_paren "" (frame_symbol fr)) as [module|].
      * apply (runs_at_most_state (Ret module)).
      * apply getExecutableName_no_command.
    + intros exe_name.
      apply (runs_at_most_bind 1 (length rest));
        [apply (runs_at_most_emit (Shell _)) | intros _; apply IH].
Qed.

(** X6: whatever the signal, the stack and the outcome, one delivery makes
    the handler run at most 34 commands: of the 35 frames it captures the
    first is skipped. *)
Theorem bt_sighandler_runs_at_most_34_commands
    (sig si_addr : Z) (stack : list Frame) (p : Process) :
  exists out,
    events (bt_sighandler sig si_addr stack p).2 = events p ++ out /\
    (length (shell_commands out) <= 34)%nat.
Proof.
  assert (Hlen : (length (drop 1 (take 35 stack)) <= 34)%nat).
  { rewrite length_drop, length_take. lia. }
  revert p. change (runs_at_most 34 (bt_sighandler sig si_addr stack)).
  unfold bt_sighandler. apply (runs_at_most_bind 0 34).
  - destruct (sig =? SIGSEGV);
      [| destruct ((sig =? SIGKILL) || (sig =? SIGINT))].
    + apply (runs_at_most_bind 0 0);
        [apply (runs_at_most_emit (Stdout _)) | intros _].
      apply (runs_at_most_state (Ret true)).
    + apply (runs_at_most_bind 0 0);
        [by apply runs_at_most_modify | intros _].
      apply (runs_at_most_state (Ret false)).
    + apply (runs_at_most_bind 0 0);
        [apply (runs_at_most_emit (Stdout _)) | intros _].
      apply (runs_at_most_state (Ret true)).
  - intros [|]; cbn [negb]; [| apply (runs_at_most_le 0); [lia |];
                               apply (runs_at_most_state (Ret tt))].
    apply (runs_at_most_bind 0 34);
      [apply (runs_at_most_emit (Stdout _)) | intros _].
    apply (runs_at_most_le (length (drop 1 (take 35 stack)) + 0)); [lia |].
    apply runs_at_most_bind; [apply print_frames_commands | intros _].
    destruct (sig =? SIGPIPE).
    + apply (runs_at_most_emit (Log _ _)).
    + apply (runs_at_most_state (Exit sig)).
Qed.

Lemma print_frames_without_name (frames : list Frame) :
  Exists (fun fr => before_paren "" (frame_symbol fr) = None) frames ->
  forall (i : Z) (p : Process),
    executable_name p = None ->
    exists p',
      print_frames i frames p = (Exit 1, p') /\
      Stderr ("ERROR GETTING NAME" +:+ nl) ∈ events p'.
Proof.
  induction frames as [|fr rest IH]; intros Hex i p Hname.
  - by apply Exists_nil in Hex.
  - cbn [print_frames].
    unfold mbind at 1 2, M_bind at 1 2, emit at 1, modify at 1.
    set (p1 := set_events _ p).
    unfold executable_name in Hname.
    destruct (exe p) as [cached|] eqn:Hexe; [done |].
    destruct (before_paren "" (frame_symbol fr)) as [module|] eqn:Hparen.
    + apply Exists_cons in Hex as [Hhead | Hrest]; [congruence |].
      unfold mret at 1, M_ret at 1.
      unfold mbind at 1, M_bind at 1, emit at 1, modify at 1.
      apply IH; [done |]. unfold executable_name. simpl. by rewrite Hexe.
    + unfold getExecutableName, initialiseExecutableName. run_monad.
      rewrite Hexe, Hname. run_monad. eexists. split; [done |]. simpl.
      rewrite elem_of_app, !elem_of_cons. auto.
Qed.

(** X7: when the name of the executable cannot be read and one of the
    frames to print has no module in its symbol, the handler ends the
    process with status 1 after the line ["ERROR GETTING NAME"] on the
    error stream.  This holds for SIGPIPE too, which otherwise returns. *)
Theorem bt_sighandler_exits_without_name
    (sig si_addr : Z) (stack : list Frame) (p : Process) :
  sig <> SIGKILL -> sig <> SIGINT ->
  executable_name p = None ->
  Exists (fun fr => before_paren "" (frame_symbol fr) = None)
    (drop 1 (take 35 stack)) ->
  exists p',
    bt_sighandler sig si_addr stack p = (Exit 1, p') /\
    Stderr ("ERROR GETTING NAME" +:+ nl) ∈ events p'.
Proof.
  intros Hkill Hint Hname Hex. unfold bt_sighandler.
  apply Z.eqb_neq in Hkill, Hint. rewrite Hkill, Hint. simpl.
  destruct (sig =? SIGSEGV); run_monad;
    match goal with
    | |- context [print_frames 1 _ ?q] =>
        destruct (print_frames_without_name _ Hex 1 q Hname)
          as (p' & -> & Hin)
    end; eauto.
Qed.

Lemma run_app (a b : list Action) (s : System) :
  run (a ++ b) s = run a s ≫= run b.
Proof.
  revert s. induction a as [|x a IH]; intros s; simpl; [done |].
  destruct (step x s); simpl; [apply IH | done].
Qed.

Lemma run_interrupts (deliveries : list Action) :
  forall s : System,
    status s = Running ->
    Forall is_interrupt deliveries ->
    exists s',
      run deliveries s = Some s' /\
      status s' = Running /\
      events (process s') = events (process s) /\
      loop_sources (process s') =
        loop_sources (process s) ++ replicate (length deliveries) QuitLoop.
Proof.
  induction deliveries as [|a rest IH]; intros s Hrun Hall.
  - exists s. simpl. by rewrite app_nil_r.
  - apply Forall_cons in Hall as [Ha Hrest].
    destruct a as [thread sig si_addr stack| |]; simpl in Ha; try done.
    subst sig. simpl. unfold step. rewrite Hrun. unfold deliver.
    rewrite decide_True by (rewrite !elem_of_cons; auto).
    rewrite bt_sighandler_interrupt. simpl.
    destruct (IH {| process := set_loop_sources
                                 (loop_sources (process s) ++ [QuitLoop])
                                 (process s);
                    status := after_handler (Ret tt);
                    worker := worker s |} eq_refl Hrest)
      as (s' & Hsteps & Hst & Hev & Hsrc).
    exists s'. split_and!; [done | done | by rewrite Hev |].
    rewrite Hsrc. simpl. by rewrite <- app_assoc.
Qed.

(** X8: interrupts add up without harm.  However many SIGINT are
    delivered before the main loop comes to iterate, on whichever threads,
    they print nothing, and one iteration of the loop dispatches and
    removes all the [quit_loop] sources, the loop stops and [main] returns
    0. *)
Theorem interrupts_stop_loop_once
    (deliveries : list Action) (s : System) :
  status s = Running ->
  deliveries <> [] ->
  Forall is_interrupt deliveries ->
  exists s',
    run (deliveries ++ [Iterate]) s = Some s' /\
    status s' = Exited 0 /\
    loop_sources (process s') = [] /\
    events (process s') = events (process s).
Proof.
  intros Hrun Hne Hall.
  destruct (run_interrupts deliveries s Hrun Hall)
    as (s1 & Hsteps & Hst & Hev & Hsrc).
  rewrite run_app, Hsteps. simpl. unfold step. rewrite Hst. simpl.
  destruct (iterate_pending s1) as (Hst2 & Hsrc2 & Hev2).
  { rewrite Hsrc. destruct deliveries; [done |]. simpl.
    by destruct (loop_sources (process s)). }
  exists (iterate s1). split_and!; [done | done | done | congruence].
Qed.

End SignalOutput.

(** ** More on [load_config] *)

Section MoreConfiguration.

Context `{cfg : MediaConfig} `{os : Platform}.
Import KeyFileOps KeyFileFacts.




Lemma string_of_key_resolved (kf : KeyFile) :
  SDP_PATTERN_KEY <> MEDIA_SERVER_ADDRESS_KEY ->
  SDP_PATTERN_KEY <> MEDIA_SERVER_SERVICE_PORT_KEY ->
  string_of_key (with_port (with_address kf)) SERVER_GROUP SDP_PATTERN_KEY =
    string_of_key kf SERVER_GROUP SDP_PATTERN_KEY.
Proof.
  intros Hsa Hsp. unfold string_of_key.
  by rewrite raw_value_with_port, raw_value_with_address.
Qed.



Lemma sdp_pattern_file_missing_resolved (kf : KeyFile)
    (fs : gmap string string) :
  SDP_PATTERN_KEY <> MEDIA_SERVER_ADDRESS_KEY ->
  SDP_PATTERN_KEY <> MEDIA_SERVER_SERVICE_PORT_KEY ->
  sdp_pattern_file_missing (with_port (with_address kf)) fs <->
  sdp_pattern_file_missing kf fs.
Proof.
  intros Hsa Hsp. unfold sdp_pattern_file_missing.
  by rewrite string_of_key_resolved.
Qed.

(** [load_config] faults exactly when the loaded file names an SDP pattern
    file that cannot be opened; otherwise it returns. *)
Lemma load_config_faults_iff (file_name : string) (p : Process) :
  SDP_PATTERN_KEY <> MEDIA_SERVER_ADDRESS_KEY ->
  SDP_PATTERN_KEY <> MEDIA_SERVER_SERVICE_PORT_KEY ->
  ((load_config file_name p).1 = Ret tt \/
   (load_config file_name p).1 = Segv) /\
  ((load_config file_name p).1 = Segv <->
   exists kf,
     g_key_file_load_from_data (default "" (files p !! file_name)) =
       Loaded kf /\
     sdp_pattern_file_missing kf (with_config_file file_name (files p))).
Proof.
  intros Hsa Hsp. split; [apply load_config_result |].
  pose proof (load_config_run file_name p) as H.
  destruct (g_key_file_load_from_data _) as [kf| |code] eqn:Hload.
  - destruct H as (p0 & -> & Hkf0 & Hf0).
    destruct (resolve_keys_run file_name p0)
      as (r & p' & -> & Hkf & _ & _ & Hfiles).
    rewrite Hkf, Hkf0, Hf0 in Hfiles. simpl.
    rewrite !sdp_pattern_file_missing_resolved in Hfiles by done.
    destruct Hfiles as [(-> & Hnot & _) | (-> & Hmiss & _)].
    + split; [done |]. by intros (kf' & [= <-] & Hmiss).
    + split; [| done]. intros _. by exists kf.
  - destruct H as (p' & -> & _). simpl. split; [done |].
    by intros (kf & [=] & _).
  - destruct H as (p' & -> & _). simpl. split; [done |].
    by intros (kf & [=] & _).
Qed.

(** X10: [load_config] lets no error out.  Every exception of the key
    file is caught in it; it does not exit and does not wait.  It returns,
    except in one case, where it faults: the file parsed and its SDP
    pattern key names a file that cannot be opened. *)
Theorem load_config_returns_or_faults (file_name : string) (p : Process) :
  SDP_PATTERN_KEY <> MEDIA_SERVER_ADDRESS_KEY ->
  SDP_PATTERN_KEY <> MEDIA_SERVER_SERVICE_PORT_KEY ->
  ((load_config file_name p).1 = Ret tt \/
   (load_config file_name p).1 = Segv) /\
  ((load_config file_name p).1 = Segv <->
   exists kf,
     g_key_file_load_from_data (default "" (files p !! file_name)) =
       Loaded kf /\
     sdp_pattern_file_missing kf (with_config_file file_name (files p))).
Proof. apply load_config_faults_iff. Qed.





Lemma address_of_key_with_port (kf : KeyFile) :
  MEDIA_SERVER_ADDRESS_KEY <> MEDIA_SERVER_SERVICE_PORT_KEY ->
  address_of_key (with_port kf) = address_of_key kf.
Proof.
  intros Hap. unfold address_of_key, string_of_key.
  by rewrite raw_value_with_port.
Qed.

Lemma address_of_key_with_address (kf : KeyFile) :
  g_key_file_parse_value_as_string
    (g_key_file_parse_string_as_value MEDIA_SERVER_ADDRESS) =
    Some MEDIA_SERVER_ADDRESS ->
  address_of_key (with_address kf) =
    Some (default MEDIA_SERVER_ADDRESS (address_of_key kf)).
Proof.
  intros Hdefault. unfold with_address.
  destruct (address_of_key kf) as [a|] eqn:Ha; [done |].
  unfold address_of_key, string_of_key. by rewrite raw_value_set_eq.
Qed.

Lemma port_of_key_with_port (kf : KeyFile) :
  g_key_file_parse_value_as_integer (pretty MEDIA_SERVER_SERVICE_PORT) =
    Some MEDIA_SERVER_SERVICE_PORT ->
  valid_port MEDIA_SERVER_SERVICE_PORT ->
  port_of_key (with_port kf) =
    Some (default MEDIA_SERVER_SERVICE_PORT (port_of_key kf)).
Proof.
  intros Hdefault Hvalid. unfold with_port.
  destruct (port_of_key kf) as [n|] eqn:Hn; [done |].
  unfold port_of_key, integer_of_key. rewrite raw_value_set_eq. simpl.
  rewrite Hdefault. simpl. by rewrite decide_True.
Qed.

(** X14: loading again what [load_config] wrote changes nothing.  Given
    that GLib reads back the key file it printed and the defaults it
    stored, a second [load_config] on the state the first one returned in
    returns too, with the same address, port and key file, and the files
    are what they were. *)
Theorem load_config_idempotent
    (file_name : string) (p p1 : Process) (kf : KeyFile) :
  MEDIA_SERVER_ADDRESS_KEY <> MEDIA_SERVER_SERVICE_PORT_KEY ->
  SDP_PATTERN_KEY <> MEDIA_SERVER_ADDRESS_KEY ->
  SDP_PATTERN_KEY <> MEDIA_SERVER_SERVICE_PORT_KEY ->
  g_key_file_parse_value_as_string
    (g_key_file_parse_string_as_value MEDIA_SERVER_ADDRESS) =
    Some MEDIA_SERVER_ADDRESS ->
  g_key_file_parse_value_as_integer (pretty MEDIA_SERVER_SERVICE_PORT) =
    Some MEDIA_SERVER_SERVICE_PORT ->
  valid_port MEDIA_SERVER_SERVICE_PORT ->
  g_key_file_load_from_data (default "" (files p !! file_name)) = Loaded kf ->
  load_config file_name p = (Ret tt, p1) ->
  g_key_file_load_from_data (g_key_file_to_data (configFile p1)) =
    Loaded (configFile p1) ->
  exists p2,
    load_config file_name p1 = (Ret tt, p2) /\
    serverAddress p2 = serverAddress p1 /\
    serverServicePort p2 = serverServicePort p1 /\
    configFile p2 = configFile p1 /\
    files p2 = files p1.
Proof.
  intros Hap Hsa Hsp Hda Hdp Hvalid Hload Hrun Hback.
  (* the first load *)
  pose proof (load_config_run file_name p) as H. rewrite Hload in H.
  destruct H as (p0 & Heq & Hkf0 & Hf0). rewrite Heq in Hrun.
  destruct (resolve_keys_run file_name p0)
    as (r & p' & Hrun' & Hkf1 & Ha1 & Hp1 & Hfiles1).
  rewrite Hrun' in Hrun. injection Hrun as -> ->.
  rewrite Hkf0 in Hkf1, Ha1, Hp1.
  destruct Hfiles1 as [(_ & Hnot1 & Hf1) | ([=] & _)].
  set (kf1 := with_port (with_address kf)) in *.
  assert (Haddr : address_of_key kf1 =
                    Some (default MEDIA_SERVER_ADDRESS (address_of_key kf))).
  { subst kf1. rewrite address_of_key_with_port by done.
    by apply address_of_key_with_address. }
  assert (Hfix_a : with_address kf1 = kf1).
  { unfold with_address. by rewrite Haddr. }
  assert (Hport : port_of_key kf1 =
                    Some (default MEDIA_SERVER_SERVICE_PORT
                            (port_of_key (with_address kf)))).
  { subst kf1. by apply port_of_key_with_port. }
  assert (Hfix_p : with_port kf1 = kf1).
  { unfold with_port. by rewrite Hport. }
  (* the second load *)
  assert (Hfile1 : files p1 !! file_name = Some (g_key_file_to_data kf1)).
  { rewrite Hf1, Hkf1. apply lookup_insert_eq. }
  pose proof (load_config_run file_name p1) as H.
  unfold with_config_file in H. rewrite Hfile1 in H. simpl in H.
  rewrite Hkf1 in Hback. rewrite Hback in H.
  destruct H as (q0 & -> & Hkq0 & Hfq0).
  destruct (resolve_keys_run file_name q0)
    as (r & p2 & -> & Hkf2 & Ha2 & Hp2 & Hfiles2).
  rewrite Hkq0 in Hkf2, Ha2, Hp2.
  rewrite Hfix_a in Hkf2, Hp2. rewrite Hfix_p in Hkf2.
  rewrite Haddr in Ha2. rewrite Hport in Hp2. simpl in Ha2, Hp2.
  rewrite Hkf2, Hfq0 in Hfiles2.
  destruct Hfiles2 as [(-> & _ & Hf2) | (_ & Hmiss & _)].
  - exists p2. split_and!; [done | congruence .. |].
    rewrite Hf2, Hf1, Hkf1. by rewrite insert_insert_eq.
  - exfalso. apply Hnot1. rewrite Hkf1.
    destruct Hmiss as (Hnew & name & Hname & Hnone).
    split; [done |]. exists name. split; [done |].
    rewrite Hf1 in Hnone. by apply lookup_insert_None in Hnone as [? _].
Qed.


(** X17: a file whose address and port keys are both good is taken as it
    is: [load_config] substitutes nothing, the key file in memory is the
    one that was parsed, and what it writes back is GLib's print of it. *)
Theorem load_config_valid_file_unchanged
    (file_name : string) (p p' : Process) (kf : KeyFile) (a : string) (n : Z) :
  MEDIA_SERVER_ADDRESS_KEY <> MEDIA_SERVER_SERVICE_PORT_KEY ->
  g_key_file_load_from_data (default "" (files p !! file_name)) = Loaded kf ->
  address_of_key kf = Some a ->
  port_of_key kf = Some n ->
  load_config file_name p = (Ret tt, p') ->
  serverAddress p' = a /\
  serverServicePort p' = n /\
  configFile p' = kf /\
  files p' !! file_name = Some (g_key_file_to_data kf).
Proof.
  intros Hap Hload Ha Hn Hrun.
  pose proof (load_config_run file_name p) as H. rewrite Hload in H.
  destruct H as (p0 & Heq & Hkf0 & Hf0). rewrite Heq in Hrun.
  destruct (resolve_keys_run file_name p0)
    as (r & p'' & Hrun' & Hkf & Haddr & Hport & Hfiles).
  rewrite Hrun' in Hrun. injection Hrun as -> ->.
  rewrite Hkf0 in Hkf, Haddr, Hport.
  assert (Hfix : with_address kf = kf) by (unfold with_address; by rewrite Ha).
  rewrite Hfix in Hkf, Hport.
  assert (Hfix' : with_port kf = kf) by (unfold with_port; by rewrite Hn).
  rewrite Hfix' in Hkf. rewrite Ha in Haddr. rewrite Hn in Hport.
  split_and!; [done .. |].
  destruct Hfiles as [(_ & _ & Hf) | ([=] & _)].
  rewrite Hf, Hkf. apply lookup_insert_eq.
Qed.

End MoreConfiguration.

(** ** Start-up *)

Section StartUp.

Context `{cfg : MediaConfig} `{os : Platform}.

(** X15: [main] with a well-formed command line comes to wait in the main
    loop, running and with no source attached, unless the configuration
    file parses and names an SDP pattern file that cannot be opened; in
    that case the process ends in the handler of SIGSEGV, with status 11,
    or with status 1 when the handler cannot name the executable. *)
Theorem boot_reaches_loop
    (conf_file : option string) (fs : gmap string string)
    (stack : list Frame) :
  SDP_PATTERN_KEY <> MEDIA_SERVER_ADDRESS_KEY ->
  SDP_PATTERN_KEY <> MEDIA_SERVER_SERVICE_PORT_KEY ->
  let file_name := default DEFAULT_CONFIG_FILE conf_file in
  let s := boot (Options conf_file) fs stack in
  (status s = Running <->
   ~ exists kf,
       g_key_file_load_from_data (default "" (fs !! file_name)) = Loaded kf /\
       sdp_pattern_file_missing kf (with_config_file file_name fs)) /\
  (status s = Running \/ status s = Exited SIGSEGV \/ status s = Exited 1) /\
  (status s = Running -> loop_idle s).
Proof.
  intros Hsa Hsp file_name s.
  set (missing := exists kf,
         g_key_file_load_from_data (default "" (fs !! file_name)) =
           Loaded kf /\
         sdp_pattern_file_missing kf (with_config_file file_name fs)).
  assert (Hcases :
    (status s = Running /\ ~ missing) \/
    ((status s = Exited SIGSEGV \/ status s = Exited 1) /\ missing)).
  { remember (status s) as st eqn:Hst. subst s. unfold boot, main in Hst.
    replace (match conf_file with
             | Some name => load_config name
             | None => load_config DEFAULT_CONFIG_FILE
             end) with (load_config file_name) in Hst
      by (subst file_name; by destruct conf_file).
    do 5 (erewrite bind_Ret in Hst by reflexivity).
    unfold mbind at 1, M_bind at 1 in Hst.
    match type of Hst with
    | context [load_config file_name ?q] => set (p1 := q) in Hst
    end.
    pose proof (load_config_faults_iff file_name p1 Hsa Hsp) as [Hres Hiff].
    pose proof (load_config_preserves file_name loop_sources
                  ltac:(done) ltac:(done) ltac:(done) ltac:(done)
                  ltac:(done) ltac:(done) p1) as Hsrc.
    change (files p1) with fs in Hiff. fold missing in Hiff.
    destruct (load_config file_name p1) as [r p2]. simpl in Hres, Hiff, Hsrc.
    destruct Hres as [-> | ->].
    - erewrite bind_Ret in Hst by reflexivity.
      unfold loop_run, g_main_context_iteration in Hst. run_monad.
      revert Hst. run_monad. rewrite Hsrc. simpl. intros ->.
      left. split; [done |]. intros Hmiss. by apply Hiff in Hmiss.
    - pose proof (bt_sighandler_segv 0 stack p2) as Hh.
      destruct (bt_sighandler SIGSEGV 0 stack p2) as [r' p3].
      right. split; [| by apply Hiff].
      destruct Hh as [_ [-> | ->]]; simpl in Hst; auto. }
  split_and!; [| | apply boot_idle].
  - destruct Hcases as [[-> Hnot] | [[-> | ->] Hmiss]]; by split.
  - destruct Hcases as [[-> _] | [[-> | ->] _]]; auto.
Qed.

End StartUp.

(** ** The theorems on examples *)

Module Examples.
Import Sample KeyFileOps.

#[local] Existing Instance config.

Lemma keys_distinct :
  MEDIA_SERVER_ADDRESS_KEY <> MEDIA_SERVER_SERVICE_PORT_KEY /\
  SDP_PATTERN_KEY <> MEDIA_SERVER_ADDRESS_KEY /\
  SDP_PATTERN_KEY <> MEDIA_SERVER_SERVICE_PORT_KEY.
Proof. by split_and!. Defined.

Example load_bad_port :
  load_from_data text_bad_port = Loaded key_file_bad_port.
Proof. vm_compute. reflexivity. Defined.

Example load_port_8080 :
  load_from_data text_port_8080 = Loaded key_file_port_8080.
Proof. vm_compute. reflexivity. Defined.

Example load_missing_pattern :
  load_from_data text_missing_pattern = Loaded key_file_missing_pattern.
Proof. vm_compute. reflexivity. Defined.

(** Port values that are no integer from 1 to 65535, and one that is. *)
Example ports_out_of_range :
  Forall (fun v =>
            port_of_key (os := platform ServesForever)
              [ {| group_name := Some "Server";
                   key_value_pairs := [KeyValue "serverPort" v] |} ] = None)
    ["0"; "-5"; "70000"; "65536"; "eighty"; ""].
Proof. repeat constructor. Qed.

Example port_in_range :
  port_of_key (os := platform ServesForever) key_file_port_8080 = Some 8080.
Proof. vm_compute. reflexivity. Qed.

(** The file [load_config] writes for [text_bad_port]: port and address
    are substituted, every other line stands as it stood. *)
Example bad_port_rewritten :
  files (load_config (os := platform ServesForever) conf
           (started text_bad_port)).2 !! conf =
    Some (unlines ["# Kurento"; "[Server]"; "serverPort=9090"; "# keep me";
                   "other=1"; "serverAddress=localhost"; "[Extra]"; "x=y"]).
Proof. vm_compute. reflexivity. Qed.

(** With a missing SDP pattern file the process ends in the handler of
    SIGSEGV, with status 11, and the configuration file is as it was. *)
Example missing_pattern_ends_process :
  let s := boot (os := platform ServesForever) (Options None)
             {[ conf := text_missing_pattern ]} stack in
  status s = Exited SIGSEGV /\
  files (process s) !! conf = Some text_missing_pattern.
Proof. vm_compute. by split. Qed.

(** C1 fails on the code: the bind fails, and the parent has been
    signalled all the same. *)
Lemma readiness_sent_although_bind_fails :
  ~ readiness_iff_bound (os := platform BindFails)
      (events (create_media_server_service (os := platform BindFails)
                 (initial_process ∅)).2).
Proof.
  intros [Hbound _].
  destruct Hbound as [port Hin].
  - vm_compute. in_trace.
  - revert Hin.
    change (Bound port ∉ [ThreadManagerStart 15;
                          Log LINFO "Starting MediaServerService";
                          Kill 1 18; BindFailed 9090]).
    not_in_trace.
Qed.

Lemma service_ignores_configured_port_witness :
  let p' := (load_config (os := platform ServesForever) conf
               (started text_port_8080)).2 in
  serverServicePort p' = 8080 /\
  p_server (create_media_server_service (os := platform ServesForever) p').2 =
    Some 9090 /\
  exists trace,
    events (create_media_server_service (os := platform ServesForever) p').2 =
      events p' ++ trace /\
    (Bound 8080 ∉ trace) /\ (BindFailed 8080 ∉ trace) /\
    (Bound 9090 ∈ trace \/ BindFailed 9090 ∈ trace).
Proof.
  intros p'.
  refine (service_ignores_configured_port (os := platform ServesForever)
            conf (started text_port_8080) p' key_file_port_8080 8080
            (Ret tt) _ _ _ _ _).
  - apply keys_distinct.
  - exact load_port_8080.
  - vm_compute. reflexivity.
  - discriminate.
  - vm_compute. reflexivity.
Defined.

Lemma load_sdp_pattern_open_failure_faults_witness :
  let p := set_configFile key_file_missing_pattern
             (started text_missing_pattern) in
  (files p !! "/etc/kurento/pattern.sdp" = None ->
   (load_sdp_pattern (os := platform ServesForever) p).1 = Segv) /\
  (forall text,
      files p !! "/etc/kurento/pattern.sdp" = Some text ->
      sdp_parse text = None ->
      (load_sdp_pattern (os := platform ServesForever) p).1 = Ret None).
Proof.
  apply (load_sdp_pattern_open_failure_faults (os := platform ServesForever)).
  - reflexivity.
  - vm_compute. reflexivity.
Defined.

Lemma load_config_resolves_each_key_witness :
  let p' := (load_config (os := platform ServesForever) conf
               (started text_bad_port)).2 in
  port_of_key (os := platform ServesForever) key_file_bad_port = None /\
  serverServicePort p' = 9090 /\
  raw_value (configFile p') "Server" "serverPort" = Some "9090" /\
  serverAddress p' = "localhost" /\
  raw_value (configFile p') "Server" "serverAddress" = Some "localhost" /\
  files p' !! conf = Some (print_key_file (configFile p')).
Proof.
  pose proof (load_config_resolves_each_key (os := platform ServesForever)
                conf (started text_bad_port)
                (load_config (os := platform ServesForever) conf
                   (started text_bad_port)).2
                key_file_bad_port (Ret tt)
                (proj1 keys_distinct) (proj1 (proj2 keys_distinct))
                (proj2 (proj2 keys_distinct)) load_bad_port)
    as H.
  assert (Hport : port_of_key (os := platform ServesForever)
                    key_file_bad_port = None)
    by (vm_compute; reflexivity).
  assert (Haddr : address_of_key (os := platform ServesForever)
                    key_file_bad_port = None)
    by (vm_compute; reflexivity).
  rewrite Hport, Haddr in H.
  destruct H as ((? & ?) & (? & ?) & _ & Hfile);
    [vm_compute; reflexivity |].
  specialize (Hfile eq_refl). by split_and!.
Defined.

Lemma load_config_port_in_range_witness :
  valid_port 9090 /\
  valid_port (serverServicePort
                (load_config (os := platform ServesForever) conf
                   (started text_bad_port)).2).
Proof.
  assert (H : valid_port 9090) by (unfold valid_port; lia).
  split; [exact H |].
  exact (load_config_port_in_range (os := platform ServesForever)
           conf (started text_bad_port) H).
Defined.

(** C6 fails on the code: on a SIGPIPE the handler prints before it logs. *)
Lemma sigpipe_output_is_not_only_a_log_line :
  exists s',
    step (os := platform ServesForever)
      (Deliver ServiceThread SIGPIPE 0 stack) (running ServesForever) =
      Some s' /\
    Stdout ("Got signal 13" +:+ nl) ∈ events (process s') /\
    ~ sigpipe_only_logs (running ServesForever) s'.
Proof.
  eexists. split; [vm_compute; reflexivity |]. split.
  - vm_compute. in_trace.
  - intros (_ & _ & Hev). vm_compute in Hev. discriminate Hev.
Qed.

Lemma sigpipe_prints_backtrace_and_continues_witness :
  exists s' out,
    step (os := platform ServesForever)
      (Deliver ServiceThread SIGPIPE 0 stack) (running ServesForever) =
      Some s' /\
    status s' = Running /\
    loop_is_running (process s') =
      loop_is_running (process (running ServesForever)) /\
    loop_sources (process s') =
      loop_sources (process (running ServesForever)) /\
    events (process s') =
      events (process (running ServesForever)) ++
        Stdout ("Got signal 13" +:+ nl) ::
        Stdout (tab +:+ "[bt] Execution path:" +:+ nl) :: out ++
        [Log LDEBUG "Ignore sigpipe"] /\
    Forall is_diagnostic out /\
    length out = (2 * length (drop 1 (take 35 stack)))%nat.
Proof.
  apply (sigpipe_prints_backtrace_and_continues (os := platform ServesForever)).
  - vm_compute. reflexivity.
  - by eexists.
Defined.

Lemma interrupt_stops_loop_in_one_iteration_witness :
  exists s1 s2,
    step (os := platform ServesForever)
      (Deliver ServiceThread SIGINT 0 stack) (running ServesForever) =
      Some s1 /\
    status s1 = Running /\
    events (process s1) = events (process (running ServesForever)) /\
    loop_is_running (process s1) =
      loop_is_running (process (running ServesForever)) /\
    loop_sources (process s1) =
      loop_sources (process (running ServesForever)) ++ [QuitLoop] /\
    step (os := platform ServesForever) Iterate s1 = Some s2 /\
    status s2 = Exited 0 /\
    loop_sources (process s2) = [] /\
    events (process s2) = events (process (running ServesForever)).
Proof.
  apply (interrupt_stops_loop_in_one_iteration (os := platform ServesForever)).
  vm_compute. reflexivity.
Defined.

(** C8 fails on the code: the accept loop of the service ends, and no
    number of iterations makes the main loop stop. *)
Lemma accept_loop_exit_leaves_loop_running :
  ~ accept_loop_exit_stops_loop (os := platform ServesUntilClosed)
      (running ServesUntilClosed).
Proof.
  intros (n & s' & Hrun & _ & Hstatus).
  change (RunService :: replicate n Iterate)
    with ([RunService] ++ replicate n Iterate) in Hrun.
  simpl in Hrun.
  destruct (step RunService (running ServesUntilClosed)) as [s1|] eqn:Hs1;
    [| done].
  vm_compute in Hs1. injection Hs1 as <-. simpl in Hrun.
  apply (run_iterations_idle (os := platform ServesUntilClosed)) in Hrun;
    [congruence | done ..].
Qed.

Lemma only_interrupt_stops_loop_witness :
  let s' := default (running ServesUntilClosed)
              (run (os := platform ServesUntilClosed)
                 actions_without_interrupt (running ServesUntilClosed)) in
  AcceptLoopClosed ∈ events (process s') /\
  status s' <> Exited 0 /\ (status s' = Running -> loop_idle s').
Proof.
  split; [vm_compute; in_trace |].
  apply (only_interrupt_stops_loop (os := platform ServesUntilClosed)
           actions_without_interrupt (running ServesUntilClosed)).
  - vm_compute. reflexivity.
  - by split.
  - repeat constructor; simpl; try tauto. discriminate.
  - vm_compute. reflexivity.
Defined.

Lemma load_config_keeps_unrecognized_lines_witness :
  let out := load_config (os := platform ServesForever) conf
               (started text_bad_port) in
  (out.1 = Ret tt /\
   exists kf',
     files out.2 !! conf = Some (print_key_file kf') /\
     filter untouched (lines_of kf') =
       filter untouched (lines_of key_file_bad_port) /\
     map group_name key_file_bad_port `suffix_of` map group_name kf') \/
  (out.1 = Segv /\
   files out.2 !! conf =
     Some (default "" (files (started text_bad_port) !! conf))).
Proof.
  apply (load_config_keeps_unrecognized_lines (os := platform ServesForever)
           conf (started text_bad_port)).
  - exact load_bad_port.
  - vm_compute. reflexivity.
Defined.

Lemma load_config_fault_skips_rewrite_witness :
  exists p',
    load_config (os := platform ServesForever) conf
      (started text_missing_pattern) = (Segv, p') /\
    files p' = files (started text_missing_pattern) /\
    configFile p' =
      with_port (os := platform ServesForever)
        (with_address (os := platform ServesForever)
           key_file_missing_pattern).
Proof.
  apply (load_config_fault_skips_rewrite (os := platform ServesForever)
           conf text_missing_pattern "/etc/kurento/pattern.sdp").
  - apply keys_distinct.
  - apply keys_distinct.
  - vm_compute. reflexivity.
  - exact load_missing_pattern.
  - reflexivity.
  - vm_compute. reflexivity.
  - vm_compute. reflexivity.
Defined.

End Examples.

(** ** The further properties on examples *)

Module MoreExamples.
Import Sample KeyFileOps.

#[local] Existing Instance config.

Lemma sample_keys_distinct :
  MEDIA_SERVER_ADDRESS_KEY <> MEDIA_SERVER_SERVICE_PORT_KEY /\
  SDP_PATTERN_KEY <> MEDIA_SERVER_ADDRESS_KEY /\
  SDP_PATTERN_KEY <> MEDIA_SERVER_SERVICE_PORT_KEY.
Proof. by split_and!. Defined.

Example load_complete :
  load_from_data text_complete = Loaded key_file_complete.
Proof. vm_compute. reflexivity. Defined.

Lemma getExecutableName_cached_witness :
  let p' := set_exe (Some "/usr/bin/kurento") (initial_process ∅) in
  getExecutableName (os := platform_without_proc) p' =
    (Ret "/usr/bin/kurento", p').
Proof.
  intros p'.
  apply (getExecutableName_cached (os := platform ServesForever)
           (initial_process ∅)).
  reflexivity.
Defined.


Lemma bt_sighandler_exits_without_name_witness :
  exists p',
    bt_sighandler (os := platform_without_proc) SIGPIPE 0 stack
      (initial_process ∅) = (Exit 1, p') /\
    Stderr ("ERROR GETTING NAME" +:+ nl) ∈ events p'.
Proof.
  apply (bt_sighandler_exits_without_name (os := platform_without_proc)).
  - discriminate.
  - discriminate.
  - reflexivity.
  - simpl. apply Exists_cons_tl, Exists_cons_hd. reflexivity.
Defined.

Lemma interrupts_stop_loop_once_witness :
  exists s',
    run (os := platform ServesForever) (two_interrupts ++ [Iterate])
      (running ServesForever) = Some s' /\
    status s' = Exited 0 /\
    loop_sources (process s') = [] /\
    events (process s') = events (process (running ServesForever)).
Proof.
  apply (interrupts_stop_loop_once (os := platform ServesForever)).
  - vm_compute. reflexivity.
  - discriminate.
  - by repeat constructor.
Defined.


(** The pattern that is loaded there. *)
Example pattern_loaded :
  sdpPattern (load_config (os := platform ServesForever) conf
                started_complete).2 =
    Some {| gst_sdp_message_text := text_pattern |}.
Proof. vm_compute. reflexivity. Qed.

Lemma load_config_returns_or_faults_witness :
  let r := (load_config (os := platform ServesForever) conf
              (started text_missing_pattern)).1 in
  (r = Ret tt \/ r = Segv) /\
  (r = Segv <->
   exists kf,
     load_from_data
       (default "" (files (started text_missing_pattern) !! conf)) =
       Loaded kf /\
     sdp_pattern_file_missing (os := platform ServesForever) kf
       (with_config_file conf (files (started text_missing_pattern)))).
Proof.
  apply (load_config_returns_or_faults (os := platform ServesForever)
           conf (started text_missing_pattern));
    apply sample_keys_distinct.
Defined.




Lemma load_config_idempotent_witness :
  let p1 := (load_config (os := platform ServesForever) conf
               (started text_bad_port)).2 in
  exists p2,
    load_config (os := platform ServesForever) conf p1 = (Ret tt, p2) /\
    serverAddress p2 = serverAddress p1 /\
    serverServicePort p2 = serverServicePort p1 /\
    configFile p2 = configFile p1 /\
    files p2 = files p1.
Proof.
  intros p1.
  apply (load_config_idempotent (os := platform ServesForever)
           conf (started text_bad_port) p1 key_file_bad_port).
  - apply sample_keys_distinct.
  - apply sample_keys_distinct.
  - apply sample_keys_distinct.
  - reflexivity.
  - vm_compute. reflexivity.
  - unfold valid_port. simpl. lia.
  - vm_compute. reflexivity.
  - vm_compute. reflexivity.
  - vm_compute. reflexivity.
Defined.

Lemma boot_reaches_loop_witness :
  let s := boot (os := platform ServesForever) (Options None) ∅ stack in
  (status s = Running <->
   ~ exists kf,
       load_from_data (default "" ((∅ : gmap string string) !! conf)) =
         Loaded kf /\
       sdp_pattern_file_missing (os := platform ServesForever) kf
         (with_config_file conf ∅)) /\
  (status s = Running \/ status s = Exited SIGSEGV \/ status s = Exited 1) /\
  (status s = Running -> loop_idle s).
Proof.
  exact (boot_reaches_loop (os := platform ServesForever) None ∅ stack
           (proj1 (proj2 sample_keys_distinct))
           (proj2 (proj2 sample_keys_distinct))).
Defined.

Lemma load_config_valid_file_unchanged_witness :
  let p' := (load_config (os := platform ServesForever) conf
               started_complete).2 in
  serverAddress p' = "10.0.0.1" /\
  serverServicePort p' = 8080 /\
  configFile p' = key_file_complete /\
  files p' !! conf = Some (print_key_file key_file_complete).
Proof.
  intros p'.
  refine (load_config_valid_file_unchanged (os := platform ServesForever)
            conf started_complete p' key_file_complete "10.0.0.1" 8080
            _ _ _ _ _).
  - apply sample_keys_distinct.
  - vm_compute. reflexivity.
  - vm_compute. reflexivity.
  - vm_compute. reflexivity.
  - vm_compute. reflexivity.
Defined.

(** The complete file is written back letter for letter. *)
Example complete_written_back :
  files (load_config (os := platform ServesForever) conf
           started_complete).2 !! conf = Some text_complete.
Proof. vm_compute. reflexivity. Qed.

End MoreExamples.
